(** * kiwi: the command front end [runtime/client.py] and the module engine

    The first part embeds [run] of [runtime/client.py] as a function over an
    explicit [kiwi] interface: every call to the [kiwi] namespace, every
    [print] and every [sys.exit] is an event of a trace, and the state of the
    engine is threaded through the calls.

    The second part models the engine behind [kiwi.fetch_modules] (dependency
    resolution and the fetch / update classification).  The client only calls
    it and its code is not among the sources, so it is modelled from the
    specification of the repository. *)

From Stdlib Require Import String Ascii List ZArith Lia Bool Arith DecimalString.
From Stdlib Require Import Permutation Relations.
Import ListNotations.
Open Scope string_scope.

(** ** Python values used by the client *)

Definition ModuleName := string.

(** [x in l] on a list of strings. *)
Definition py_in (x : string) (l : list string) : bool :=
  existsb (String.eqb x) l.

(** [l.remove(x)]: drops the first occurrence of [x].  The client only calls
    it under [if x in l], so the [ValueError] case is never reached; here
    the list is returned as it is. *)
Fixpoint py_remove (x : string) (l : list string) : list string :=
  match l with
  | [] => []
  | y :: l' => if String.eqb x y then l' else y :: py_remove x l'
  end.

(** ['{}'.format(n)] for an integer. *)
Definition str_of_Z (z : Z) : string := NilZero.string_of_int (Z.to_int z).

Definition len {A} (l : list A) : Z := Z.of_nat (length l).

Definition tab : string := String (ascii_of_nat 9) EmptyString.

(** Truth value of an [argparse] list option: [None] and [[]] are false. *)
Definition truthy (o : option (list string)) : bool :=
  match o with
  | Some (_ :: _) => true
  | _ => false
  end.

Definition the_list (o : option (list string)) : list string :=
  match o with
  | Some l => l
  | None => []
  end.

Definition is_some {A} (o : option A) : bool :=
  match o with
  | Some _ => true
  | None => false
  end.

(** ** The client: [runtime/client.py] *)

Module Client.

(** What the process does that an observer can see, in order. *)
Inductive event :=
| Say (msg : string)                              (* kiwi.say(msg) *)
| Print (line : string)                           (* print(line) *)
| CallInstalled                                   (* kiwi.get_installed_module_list() *)
| CallRemote                                      (* kiwi.get_remote_module_list() *)
| CallFetch (modules : list string) (update : bool) (* kiwi.fetch_modules(modules, update) *)
| Ask (prompt : string) (choices : list string)   (* kiwi.Helper.ask(prompt, choices) *)
| CallSelfUpdate (msg : string).                  (* kiwi.runtime.update(msg) *)

(** The [kiwi] namespace handed to [run], over a state [W] of the engine
    (installed modules, registry).  [get_remote_module_list] is [None] when
    the call raises [requests.exceptions.RequestException]. *)
Record Kiwi (W : Type) := {
  get_installed_module_list : W -> list string;
  get_remote_module_list : W -> option (list string);
  get_module_description : W -> string -> string;
  fetch_modules : list string -> bool -> W ->
                  (list string * list string * list string) * W;
  ask : string -> list string -> string;
  runtime_update : string -> W -> bool * W
}.
Arguments get_installed_module_list {W}.
Arguments get_remote_module_list {W}.
Arguments get_module_description {W}.
Arguments fetch_modules {W}.
Arguments ask {W}.
Arguments runtime_update {W}.

(** The parsed command line. *)
Record Args := {
  list_modules : bool;
  get_modules : option (list string);
  update_modules : option (list string);
  self_update : bool
}.

(** A computation returns a value or leaves through [sys.exit(code)]. *)
Inductive res (A : Type) :=
| Ret (a : A)
| Exit (code : Z).
Arguments Ret {A}.
Arguments Exit {A}.

Definition M (W A : Type) : Type := W -> res A * W * list event.

Definition ret {W A} (a : A) : M W A := fun w => (Ret a, w, []).

Definition bind {W A B} (m : M W A) (f : A -> M W B) : M W B :=
  fun w =>
    match m w with
    | (Ret a, w1, t1) =>
        match f a w1 with
        | (r, w2, t2) => (r, w2, (t1 ++ t2)%list)
        end
    | (Exit c, w1, t1) => (Exit c, w1, t1)
    end.

Definition emit {W} (e : event) : M W unit := fun w => (Ret tt, w, [e]).

Definition sys_exit {W A} (code : Z) : M W A := fun w => (Exit code, w, []).

Notation "x <- m ;; k" := (bind m (fun x => k))
  (at level 61, m at next level, right associativity).
Notation "m ;; k" := (bind m (fun _ => k))
  (at level 61, right associativity).

(** The three marks of a listing line. *)
Inductive mark := Installed | Available | Unknown.

Definition mark_str (k : mark) : string :=
  match k with
  | Installed => "x"
  | Available => " "
  | Unknown => "?"
  end.

(** ['[{}] {}: {}'.format(mark, module, description)] *)
Definition listing_line (k : mark) (module description : string) : string :=
  "[" ++ mark_str k ++ "] " ++ module ++ ": " ++ description.

Section Run.
Context {W : Type}.
Variable kiwi : Kiwi W.
(** [sys.argv[1]] *)
Variable argv1 : string.

Definition say (msg : string) : M W unit := emit (Say msg).
Definition print (line : string) : M W unit := emit (Print line).

Definition call_installed : M W (list string) :=
  fun w => (Ret (get_installed_module_list kiwi w), w, [CallInstalled]).

Definition call_remote : M W (option (list string)) :=
  fun w => (Ret (get_remote_module_list kiwi w), w, [CallRemote]).

Definition call_fetch (modules : list string) (update : bool)
  : M W (list string * list string * list string) :=
  fun w =>
    match fetch_modules kiwi modules update w with
    | (r, w') => (Ret r, w', [CallFetch modules update])
    end.

Definition call_ask (prompt : string) (choices : list string) : M W string :=
  fun w => (Ret (ask kiwi prompt choices), w, [Ask prompt choices]).

Definition call_self_update (msg : string) : M W bool :=
  fun w =>
    match runtime_update kiwi msg w with
    | (b, w') => (Ret b, w', [CallSelfUpdate msg])
    end.

Definition describe (module : string) : M W string :=
  fun w => (Ret (get_module_description kiwi w module), w, []).

(** Lines 21-24: the loop over [modules], which marks each one and removes
    it from the local list [installed]; the list that is left is returned. *)
Fixpoint mark_loop (modules installed : list string) : M W (list string) :=
  match modules with
  | [] => ret installed
  | module :: rest =>
      d <- describe module ;;
      print (listing_line (if py_in module installed then Installed else Available)
                          module d) ;;
      mark_loop rest
        (if py_in module installed then py_remove module installed else installed)
  end.

(** Lines 27-28: what is left of [installed] is listed as unknown. *)
Fixpoint unknown_loop (installed : list string) : M W unit :=
  match installed with
  | [] => ret tt
  | module :: rest =>
      d <- describe module ;;
      print (listing_line Unknown module d) ;;
      unknown_loop rest
  end.

(** Lines 10-28. *)
Definition run_list : M W unit :=
  installed <- call_installed ;;
  r <- call_remote ;;
  modules <- match r with
             | Some modules => ret modules
             | None =>
                 say "could not reach remote to fetch module list, listing local modules only" ;;
                 ret installed
             end ;;
  installed' <- mark_loop modules installed ;;
  unknown_loop installed'.

(** Line 32. *)
Definition requested (args : Args) : list string :=
  if truthy (get_modules args) then the_list (get_modules args)
  else the_list (update_modules args).

(** Lines 35-52: the request set after the ['all'] sentinel is resolved. *)
Definition collect (args : Args) : M W (list string) :=
  let modules := requested args in
  if py_in "all" modules then
    if (1 <? len modules)%Z then
      say "can't have 'all' argument with other modules listed" ;;
      print "Possible solutions:" ;;
      print (tab ++ "* kiwi " ++ argv1 ++ " all") ;;
      print (tab ++ "* kiwi " ++ argv1 ++ " " ++
             String.concat " " (filter (fun module => negb (String.eqb module "all")) modules)) ;;
      sys_exit 1%Z
    else if truthy (get_modules args) then
      r <- call_remote ;;
      match r with
      | Some modules => ret modules
      | None => say "could not reach remote to fetch module list" ;; sys_exit 1%Z
      end
    else call_installed
  else ret modules.

(** Lines 58-64. *)
Definition fetch_results (args : Args) (modules fetched update failed : list string)
  : M W unit :=
  if truthy (get_modules args) then
    say "fetch results" ;;
    print (tab ++ "* " ++ str_of_Z (len fetched) ++ " new modules fetched") ;;
    print (tab ++ "* " ++ str_of_Z (len failed) ++ " modules could not be fetched") ;;
    print (tab ++ "* " ++ str_of_Z (len update) ++ " modules have an available update") ;;
    if (len modules =? len fetched + len update + len failed)%Z then ret tt
    else print (tab ++ "* " ++
                str_of_Z (len modules - len fetched - len update - len failed) ++
                " modules are present and up to date")
  else ret tt.

(** Lines 67-71: the pair of lists that the update results report. *)
Definition update_outdated (fetched update failed : list string)
  : M W (list string * list string) :=
  if (0 <? len update)%Z then
    a <- call_ask "Update the outdated modules?" ["y"; "n"] ;;
    if String.eqb a "y" then
      r <- call_fetch update true ;;
      match r with
      | (fetched', _, failed') => ret (fetched', failed')
      end
    else sys_exit 0%Z
  else ret (fetched, failed).

(** Lines 74-77. *)
Definition update_results (args : Args) (fetched update failed : list string)
  : M W unit :=
  if truthy (update_modules args) || (0 <? len update)%Z then
    say "update results" ;;
    print (tab ++ "* " ++ str_of_Z (len fetched) ++ " modules were updated") ;;
    print (tab ++ "* " ++ str_of_Z (len failed) ++ " modules could not be updated")
  else ret tt.

(** Lines 57-77: what follows the call of line 55. *)
Definition report (args : Args) (modules : list string)
           (r : list string * list string * list string) : M W unit :=
  match r with
  | (modules_fetched, modules_update, modules_failed) =>
      fetch_results args modules modules_fetched modules_update modules_failed ;;
      p <- update_outdated modules_fetched modules_update modules_failed ;;
      update_results args (fst p) modules_update (snd p)
  end.

(** Lines 31-77. *)
Definition run_fetch (args : Args) : M W unit :=
  modules <- collect args ;;
  r <- call_fetch modules (is_some (update_modules args)) ;;
  report args modules r.

(** Lines 80-83. *)
Definition run_self_update : M W unit :=
  b <- call_self_update "I have an update" ;;
  if b then say "I'm up to date" else ret tt.

Definition run (args : Args) : M W unit :=
  if list_modules args then run_list
  else if truthy (get_modules args) || truthy (update_modules args) then run_fetch args
  else if self_update args then run_self_update
  else ret tt.

End Run.

(** Projections of a finished run. *)
Definition outcome {W A} (r : res A * W * list event) : res A := fst (fst r).
Definition final {W A} (r : res A * W * list event) : W := snd (fst r).
Definition trace {W A} (r : res A * W * list event) : list event := snd r.

(** *** Observations on a trace *)

(** The lines that [print] wrote, in order. *)
Fixpoint printed (t : list event) : list string :=
  match t with
  | [] => []
  | Print line :: t' => line :: printed t'
  | _ :: t' => printed t'
  end.

(** The calls of [kiwi.fetch_modules], in order. *)
Fixpoint fetch_calls (t : list event) : list (list string * bool) :=
  match t with
  | [] => []
  | CallFetch modules update :: t' => (modules, update) :: fetch_calls t'
  | _ :: t' => fetch_calls t'
  end.

(** The questions put to the user, in order. *)
Fixpoint prompts (t : list event) : list (string * list string) :=
  match t with
  | [] => []
  | Ask prompt choices :: t' => (prompt, choices) :: prompts t'
  | _ :: t' => prompts t'
  end.

(** Events that only write to the terminal. *)
Definition is_output (e : event) : bool :=
  match e with
  | Say _ | Print _ => true
  | _ => false
  end.

(** The event of one listing line, for a module and its mark. *)
Definition entry {W} (kiwi : Kiwi W) (w : W) (e : mark * string) : event :=
  Print (listing_line (fst e) (snd e) (get_module_description kiwi w (snd e))).

(** The class of a module name against the installed and the remote names:
    in both, remote only, installed only. *)
Definition classify (installed remote : list string) (module : string) : mark :=
  if py_in module remote then
    if py_in module installed then Installed else Available
  else Unknown.

Definition warning_local_only : string :=
  "could not reach remote to fetch module list, listing local modules only".

Definition update_prompt : event := Ask "Update the outdated modules?" ["y"; "n"].

(** *** A small [kiwi] to run the client on

    Its state is the list of installed names; [engine] gives the triple that
    [fetch_modules] answers, whose first component is then installed. *)
Definition stub (remote : option (list string))
           (engine : list string -> bool -> list string * list string * list string)
           (answer : string) : Kiwi (list string) :=
  {| get_installed_module_list := fun w => w;
     get_remote_module_list := fun _ => remote;
     get_module_description := fun _ module => "about " ++ module;
     fetch_modules := fun modules update w =>
       (engine modules update, (w ++ fst (fst (engine modules update)))%list);
     ask := fun _ _ => answer;
     runtime_update := fun _ w => (false, w) |}.

(** An engine that finds every requested module outdated on a fetch, and
    updates every module it is asked to update. *)
Definition all_outdated (modules : list string) (update : bool)
  : list string * list string * list string :=
  if update then (modules, [], []) else ([], modules, []).

(** An engine that fetches every requested module. *)
Definition all_fetched (modules : list string) (update : bool)
  : list string * list string * list string :=
  (modules, [], []).

Definition args_list : Args :=
  {| list_modules := true; get_modules := None; update_modules := None;
     self_update := false |}.

Definition args_get (modules : list string) : Args :=
  {| list_modules := false; get_modules := Some modules; update_modules := None;
     self_update := false |}.

Definition args_update (modules : list string) : Args :=
  {| list_modules := false; get_modules := None; update_modules := Some modules;
     self_update := false |}.

End Client.


(** ** The engine behind [kiwi.fetch_modules] *)

Module Engine.

(** *** Data model *)

(** Modelled from the spec: the module descriptor of spec 3; the engine's own
    code is not under the sources. *)
Record ModuleDescriptor := {
  name : ModuleName;
  description : string;
  dependencies : list ModuleName;
  content : string
}.

Definition RemoteCatalog := list ModuleDescriptor.

(** Modelled from the spec: the errors of spec 7 that the engine raises. *)
Inductive error :=
| UnreachableRegistry
| NotFound (module : ModuleName)
| UnknownDependency (requester dependency : ModuleName)
| DependencyCycle (path : list ModuleName).

(** Modelled from the spec: the installed-module store and the registry as
    one command sees them (spec 3).  [broken] names the modules whose download
    fails in transport although the registry answers. *)
Record World := {
  installed : list ModuleDescriptor;
  catalog : RemoteCatalog;
  reachable : bool;
  broken : list ModuleName
}.

Definition lookup (c : list ModuleDescriptor) (n : ModuleName)
  : option ModuleDescriptor :=
  find (fun d => String.eqb (name d) n) c.

Definition names (c : list ModuleDescriptor) : list ModuleName := map name c.

(** *** Registry client and installed-module store *)

(** Modelled from the spec: the two calls of the registry client (spec 4.1),
    which fail with [UnreachableRegistry] or [NotFound]. *)
Definition listRemoteModules (w : World) : error + RemoteCatalog :=
  if reachable w then inr (catalog w) else inl UnreachableRegistry.

Definition downloadModule (w : World) (n : ModuleName) : error + ModuleDescriptor :=
  if negb (reachable w) || py_in n (broken w) then inl UnreachableRegistry
  else match lookup (catalog w) n with
       | Some d => inr d
       | None => inl (NotFound n)
       end.

(** Modelled from the spec: [listInstalled] of the installed-module store
    (spec 4.2). *)
Definition listInstalled (w : World) : list ModuleName := names (installed w).

(** Modelled from the spec: [install] (spec 4.2) writes the module, replacing
    what was stored under its name. *)
Definition install (d : ModuleDescriptor) (w : World) : World :=
  {| installed := d :: filter (fun d' => negb (String.eqb (name d') (name d)))
                              (installed w);
     catalog := catalog w;
     reachable := reachable w;
     broken := broken w |}.

(** *** Dependency resolver *)

(** The stack [path] has the module on top first; the cycle closed by
    meeting [m] again is read from [m] down the stack and back to [m]. *)
Fixpoint upto (m : ModuleName) (path : list ModuleName) : list ModuleName :=
  match path with
  | [] => []
  | x :: rest => if String.eqb x m then [x] else x :: upto m rest
  end.

Definition cycle_path (m : ModuleName) (path : list ModuleName) : list ModuleName :=
  (rev (upto m path) ++ [m])%list.

(** Modelled from the spec: the dependency resolver (spec 4.3), which is not
    under the sources.  It is a depth-first traversal of the dependencies of a
    module: a name met again on the current [path] is a cycle (this is looked
    at first, so that a module that names itself is detected and not
    skipped), a dependency that is installed is skipped, a name that is
    [done] is not visited twice, a dependency absent from the catalog is
    [UnknownDependency] for the module that asks for it, and a module is
    added after all its dependencies.  [requester] is [None] for a requested
    module, which is visited whether installed or not.  The result is [None]
    only when [fuel] runs out. *)
Fixpoint visit (fuel : nat) (inst : list ModuleName) (cat : RemoteCatalog)
         (path done : list ModuleName) (requester : option ModuleName)
         (m : ModuleName) : option (error + list ModuleName) :=
  match fuel with
  | O => None
  | S fuel' =>
      if py_in m path then Some (inl (DependencyCycle (cycle_path m path)))
      else if is_some requester && py_in m inst then Some (inr done)
      else if py_in m done then Some (inr done)
      else
        match lookup cat m with
        | None =>
            Some (inl (match requester with
                       | Some r => UnknownDependency r m
                       | None => NotFound m
                       end))
        | Some d =>
            match
              fold_left
                (fun acc dep =>
                   match acc with
                   | Some (inr done') =>
                       visit fuel' inst cat (m :: path) done' (Some m) dep
                   | other => other
                   end)
                (dependencies d) (Some (inr done))
            with
            | Some (inr done') => Some (inr (done' ++ [m])%list)
            | other => other
            end
        end
  end.






(** One dependency after the other, until one fails. *)
Definition visit_all (fuel : nat) (inst : list ModuleName) (cat : RemoteCatalog)
           (path : list ModuleName) (requester : option ModuleName)
           (deps : list ModuleName) (start : option (error + list ModuleName))
  : option (error + list ModuleName) :=
  fold_left
    (fun acc dep =>
       match acc with
       | Some (inr done') => visit fuel inst cat path done' requester dep
       | other => other
       end)
    deps start.

(** *** What the resolver keeps true

    The predicates below state the result of a traversal; they are used by
    the facts about the resolver. *)






(** Modelled from the spec: [resolve] of spec 4.3, the requested modules in
    their order of enumeration, each after its dependencies that are not
    installed.  The fuel is one more than the number of catalog entries. *)
Definition resolve (requested inst : list ModuleName) (cat : RemoteCatalog)
  : option (error + list ModuleName) :=
  visit_all (S (length cat)) inst cat [] None requested (Some (inr [])).

(** *** Synchronization engine *)

(** Modelled from the spec: the modules of [order] are downloaded and
    installed one after the other (spec 4.4 and 5); the first download that
    fails stops the rest, and what was installed before stays installed (the
    store keeps no rollback state, spec 3).  The answer holds the names that
    were installed, in that order. *)
Fixpoint install_all (order : list ModuleName) (w : World)
  : list ModuleName * option error * World :=
  match order with
  | [] => ([], None, w)
  | n :: rest =>
      match downloadModule w n with
      | inl e => ([], Some e, w)
      | inr d =>
          match install_all rest (install d w) with
          | (done, r, w') => (n :: done, r, w')
          end
      end
  end.

(** How a requested module ends. *)
Inductive class := Fetched | Failed | Unchanged.

(** Modelled from the spec: what Fetch and Update do with one requested
    module (spec 4.4), the body of [kiwi.fetch_modules], which is not under
    the sources.  On a fetch a module that is installed is unchanged and
    nothing is downloaded.  On an update, and for a module that is not
    installed, the dependencies that are not installed are resolved, then
    they and the module are downloaded and installed in that order; the
    module is fetched when all of that succeeds and failed on any resolution
    or download error.  The second component holds the modules that were
    installed on the way, the dependencies before the module (first scenario
    of spec 8). *)
Definition sync_one (update : bool) (m : ModuleName) (w : World)
  : class * list ModuleName * World :=
  if negb update && py_in m (listInstalled w) then (Unchanged, [], w)
  else
    match listRemoteModules w with
    | inl _ => (Failed, [], w)
    | inr cat =>
        match resolve [m] (listInstalled w) cat with
        | Some (inr order) =>
            match install_all order w with
            | (done, None, w') => (Fetched, done, w')
            | (done, Some _, w') => (Failed, done, w')
            end
        | _ => (Failed, [], w)
        end
    end.

(** Modelled from the spec: the result of a pass, the triple (fetched,
    updatable, failed) of spec 4.4 and the unchanged modules of spec 6. *)
Record Outcome := {
  fetched : list ModuleName;
  updatable : list ModuleName;
  failed : list ModuleName;
  unchanged : list ModuleName
}.

Definition no_outcome : Outcome :=
  {| fetched := []; updatable := []; failed := []; unchanged := [] |}.

(** The modules installed for [m] are fetched; [m] itself is failed or
    unchanged when it ends so. *)
Definition record (c : class) (m : ModuleName) (got : list ModuleName)
           (o : Outcome) : Outcome :=
  {| fetched := (fetched o ++ got)%list;
     updatable := updatable o;
     failed := match c with
               | Failed => (failed o ++ [m])%list
               | _ => failed o
               end;
     unchanged := match c with
                  | Unchanged => (unchanged o ++ [m])%list
                  | _ => unchanged o
                  end |}.



(** Modelled from the spec: the pass of the engine over a request (spec 4.4
    and 5), one module at a time against the store as the modules before it
    left it. *)
Fixpoint sync_from (update : bool) (requested : list ModuleName)
         (o : Outcome) (w : World) : Outcome * World :=
  match requested with
  | [] => (o, w)
  | m :: rest =>
      match sync_one update m w with
      | (c, got, w') => sync_from update rest (record c m got o) w'
      end
  end.

Definition sync (update : bool) (requested : list ModuleName) (w : World)
  : Outcome * World :=
  sync_from update requested no_outcome w.


(** Modelled from the spec: [kiwi.fetch_modules(modules, update)], the triple
    (fetched, updatable, failed) of spec 4.4. *)
Definition fetch_modules (modules : list ModuleName) (update : bool) (w : World)
  : (list ModuleName * list ModuleName * list ModuleName) * World :=
  match sync update modules w with
  | (o, w') => ((fetched o, updatable o, failed o), w')
  end.

(** *** The engine as the [kiwi] of the client *)



(** *** Worlds to run the engine on *)

Definition module (n : ModuleName) (deps : list ModuleName) : ModuleDescriptor :=
  {| name := n; description := "about " ++ n; dependencies := deps;
     content := "code of " ++ n |}.

(** catalog = {A (deps: B), B (deps: A)}, nothing installed *)
Definition world_cycle : World :=
  {| installed := []; catalog := [module "A" ["B"]; module "B" ["A"]];
     reachable := true; broken := [] |}.

(** The first scenario of spec 8: catalog = {A, B (deps: A)}, nothing
    installed *)
Definition world_ab : World :=
  {| installed := []; catalog := [module "A" []; module "B" ["A"]];
     reachable := true; broken := [] |}.


(** catalog = {A, B (deps: A), C, D}; C and L are installed, and L is not in
    the catalog; the download of D fails *)
Definition world_abc : World :=
  {| installed := [module "C" []; module "L" []];
     catalog := [module "A" []; module "B" ["A"]; module "C" []; module "D" []];
     reachable := true; broken := ["D"] |}.

End Engine.

(** ** The listing loops as lists of marks *)

Module Marking.
Import Client.

(** The mark and the name of each line that the loop of lines 21-24 prints,
    with the local list [installed] shrinking as the loop removes names. *)
Fixpoint marks (modules installed : list string) : list (mark * string) :=
  match modules with
  | [] => []
  | module :: rest =>
      (if py_in module installed then Installed else Available, module)
      :: marks rest
           (if py_in module installed then py_remove module installed else installed)
  end.

(** What the loop of lines 21-24 leaves of [installed]. *)
Fixpoint leftover (modules installed : list string) : list string :=
  match modules with
  | [] => installed
  | module :: rest =>
      leftover rest
        (if py_in module installed then py_remove module installed else installed)
  end.

Definition is_installed_mark (e : mark * string) : bool :=
  match fst e with
  | Installed => true
  | _ => false
  end.

(** The list that the loop of lines 21-24 runs over (lines 14-18). *)
Definition listed (remote : option (list string)) (installed : list string)
  : list string :=
  match remote with
  | Some modules => modules
  | None => installed
  end.

(** The events of lines 11-18. *)
Definition header (remote : option (list string)) : list event :=
  match remote with
  | Some _ => [CallInstalled; CallRemote]
  | None => [CallInstalled; CallRemote; Say warning_local_only]
  end.

(** A [kiwi] whose runtime has an update of itself to apply. *)
Definition stub_updating (remote : option (list string)) : Kiwi (list string) :=
  {| get_installed_module_list := fun w => w;
     get_remote_module_list := fun _ => remote;
     get_module_description := fun _ module => "about " ++ module;
     fetch_modules := fun modules update w => (all_fetched modules update, w);
     ask := fun _ _ => "n";
     runtime_update := fun _ w => (true, ("kiwi" :: w)%list) |}.

Definition args_self_update : Args :=
  {| list_modules := false; get_modules := Some []; update_modules := None;
     self_update := true |}.

End Marking.

(** ** The example module: [modules/helloworld/client.py] and
       [etc/kiwi/modules/helloworld.py] *)

Module HelloWorld.

(** The parsed command line of the module; [server] is absent from the
    older module. *)
Record Args := {
  name : option string;
  server : bool
}.

(** The part of the [kiwi] namespace that the module reads: its own name and
    the answer of [kiwi.serverside()]. *)
Record Kiwi := {
  module_name : string;
  serverside : string
}.

(** Truth value of [args.name]: [None] and the empty string are false. *)
Definition given (o : option string) : bool :=
  match o with
  | Some (String _ _) => true
  | _ => false
  end.

Definition the_name (o : option string) : string :=
  match o with
  | Some n => n
  | None => ""
  end.

Definition tip : string := "Tip: use --help flag to see how you greet others!".

(** [kiwi_main] of [modules/helloworld/client.py], lines 35-48: the lines it
    prints. *)
Definition kiwi_main (kiwi : Kiwi) (args : Args) : list string :=
  if given (name args) then
    if String.eqb (the_name (name args)) (module_name kiwi)
    then ["Hello to you too!"]
    else ["Hello, " ++ the_name (name args) ++ "!"]
  else if server args then [serverside kiwi]
  else ["Hello, world!"; tip].

(** [kiwi_main] of [etc/kiwi/modules/helloworld.py], lines 36-40. *)
Definition kiwi_main_old (args : Args) : list string :=
  ("Hello, " ++ (if given (name args) then the_name (name args) else "world") ++ "!")
  :: (if negb (given (name args)) then [tip] else []).

End HelloWorld.

(** ** The module [etc/kiwi/modules/lofi.py] *)

Module Lofi.

Definition lofi_url : string := "https://www.youtube.com/watch?v=hHW1oY26kxQ".

Definition quote : string := String (ascii_of_nat 34) EmptyString.

(** What [main] does: [subprocess.call(argv)] or a [print]. *)
Inductive action :=
| Call (argv : list string)
| Print (line : string).

(** [main] of [lofi.py], lines 8-13; [find_executable name] tells whether
    [distutils.spawn.find_executable(name)] is not [None]. *)
Definition main (find_executable : string -> bool) : list action :=
  if find_executable "explorer.exe" then
    [Call ["explorer.exe"; lofi_url ++ "&" ++ quote]]
  else if find_executable "xdg-open" then
    [Call ["xdg-open"; lofi_url]]
  else [Print "No available browsers found."].

(** The program that a call starts. *)
Definition program (a : action) : option string :=
  match a with
  | Call (prog :: _) => Some prog
  | _ => None
  end.

End Lofi.

(** * Facts *)

(** ** Membership and removal in Python lists *)

Lemma py_in_In x l : py_in x l = true <-> In x l.
Proof.
  unfold py_in. rewrite existsb_exists. split.
  - intros [y [Hy He]]. apply String.eqb_eq in He. now subst.
  - intros H. exists x. split; [assumption | apply String.eqb_refl].
Qed.

Lemma py_in_not_In x l : py_in x l = false <-> ~ In x l.
Proof.
  rewrite <- py_in_In. destruct (py_in x l); split; congruence.
Qed.

Lemma py_remove_head x l : py_remove x (x :: l) = l.
Proof. simpl. now rewrite String.eqb_refl. Qed.

Lemma py_remove_notin x l : ~ In x l -> py_remove x l = l.
Proof.
  induction l as [|y l IH]; simpl; intros H; [reflexivity|].
  destruct (String.eqb_spec x y) as [->|Hne].
  - exfalso. apply H. now left.
  - f_equal. apply IH. intros Hin. apply H. now right.
Qed.

Lemma py_remove_In x y l : x <> y -> (In y (py_remove x l) <-> In y l).
Proof.
  intros Hxy. induction l as [|z l IH]; simpl; [tauto|].
  destruct (String.eqb_spec x z) as [->|Hne]; simpl.
  - split; [tauto|]. intros [H|H]; [congruence | assumption].
  - rewrite IH. tauto.
Qed.

Lemma py_remove_NoDup x l : NoDup l -> NoDup (py_remove x l).
Proof.
  induction 1 as [|y l Hy Hl IH]; simpl; [constructor|].
  destruct (String.eqb_spec x y) as [->|Hne]; [assumption|].
  constructor; [|assumption].
  intros Hin. apply Hy. apply (py_remove_In x y l Hne). assumption.
Qed.

Lemma py_remove_filter x l :
  NoDup l -> py_remove x l = filter (fun y => negb (String.eqb y x)) l.
Proof.
  induction 1 as [|y l Hy Hl IH]; simpl; [reflexivity|].
  rewrite (String.eqb_sym y x).
  destruct (String.eqb_spec x y) as [->|Hne]; simpl.
  - symmetry. rewrite <- (py_remove_notin y l Hy) at 2.
    rewrite <- IH. now rewrite py_remove_notin.
  - now rewrite IH.
Qed.

Lemma py_in_cons x y l : py_in x (y :: l) = String.eqb x y || py_in x l.
Proof. reflexivity. Qed.

Lemma filter_notin_cons x l (inst : list string) :
  filter (fun m => negb (py_in m (x :: l))) inst
  = filter (fun m => negb (py_in m l)) (filter (fun y => negb (String.eqb y x)) inst).
Proof.
  induction inst as [|y ys IH]; [reflexivity|].
  cbn [filter]. rewrite py_in_cons.
  destruct (String.eqb y x); cbn [orb negb filter]; rewrite IH; reflexivity.
Qed.

Lemma filter_notin_skip x l (inst : list string) :
  ~ In x inst ->
  filter (fun m => negb (py_in m (x :: l))) inst
  = filter (fun m => negb (py_in m l)) inst.
Proof.
  intros Hx. apply filter_ext_in. intros y Hy. rewrite py_in_cons.
  destruct (String.eqb_spec y x) as [->|Hne]; [contradiction | reflexivity].
Qed.

Lemma py_in_remove_other x y l : x <> y -> py_in y (py_remove x l) = py_in y l.
Proof.
  intros Hxy. destruct (py_in y l) eqn:E.
  - apply py_in_In. apply py_remove_In; [assumption|]. now apply py_in_In.
  - apply py_in_not_In. intros Hc. apply py_remove_In in Hc; [|assumption].
    apply py_in_not_In in E. contradiction.
Qed.

(** ** Facts about the listing (lines 10-28) *)

Module Listing.
Import Client.

Section Loops.
Context {W : Type}.
Variable kiwi : Kiwi W.

Lemma unknown_loop_spec (installed : list string) (w : W) :
  unknown_loop kiwi installed w
  = (Ret tt, w, map (fun m => entry kiwi w (Unknown, m)) installed).
Proof.
  induction installed as [|m l IH]; [reflexivity|].
  simpl. unfold bind at 1. unfold describe at 1.
  unfold bind at 1. unfold print at 1, emit at 1.
  rewrite IH. reflexivity.
Qed.

(** Marking a list against itself: every name is found, and removing the
    first occurrence of the head leaves the tail. *)
Lemma mark_loop_self (l : list string) (w : W) :
  mark_loop kiwi l l w
  = (Ret [], w, map (fun m => entry kiwi w (Installed, m)) l).
Proof.
  induction l as [|m l IH]; [reflexivity|].
  cbn [mark_loop]. unfold bind at 1. unfold describe at 1.
  unfold bind at 1. unfold print at 1, emit at 1.
  assert (Hin : py_in m (m :: l) = true) by (apply py_in_In; now left).
  rewrite Hin, py_remove_head, IH. reflexivity.
Qed.

(** Marking duplicate-free [modules] against a duplicate-free [installed]. *)
Lemma mark_loop_nodup (modules : list string) :
  NoDup modules ->
  forall (installed : list string) (w : W),
  NoDup installed ->
  mark_loop kiwi modules installed w
  = (Ret (filter (fun m => negb (py_in m modules)) installed), w,
     map (fun m => entry kiwi w (if py_in m installed then Installed else Available, m))
         modules).
Proof.
  induction 1 as [|m l Hm Hl IH]; intros installed w Hi.
  - simpl. unfold ret. f_equal. f_equal. f_equal.
    symmetry. apply forallb_filter_id. apply forallb_forall. reflexivity.
  - cbn [mark_loop]. unfold bind at 1. unfold describe at 1.
    unfold bind at 1. unfold print at 1, emit at 1.
    rewrite IH by (destruct (py_in m installed); [now apply py_remove_NoDup | assumption]).
    cbn [app map]. f_equal; [f_equal; f_equal|].
    + (* what is left of [installed] *)
      destruct (py_in m installed) eqn:Hin.
      * rewrite py_remove_filter by assumption. symmetry. apply filter_notin_cons.
      * symmetry. apply filter_notin_skip. now apply py_in_not_In.
    + (* the marks of the rest do not depend on the removal of [m] *)
      f_equal. apply map_ext_in. intros x Hx. unfold entry. cbn [fst snd].
      destruct (py_in m installed) eqn:Hin; [|reflexivity].
      rewrite py_in_remove_other; [reflexivity|].
      intros ->. contradiction.
Qed.

(** The whole run of the listing when the registry cannot be reached. *)
Lemma run_list_unreachable (argv1 : string) (args : Args) (w : W) :
  list_modules args = true ->
  get_remote_module_list kiwi w = None ->
  run kiwi argv1 args w
  = (Ret tt, w,
     [CallInstalled; CallRemote; Say warning_local_only]
     ++ map (fun m => entry kiwi w (Installed, m)) (get_installed_module_list kiwi w))%list.
Proof.
  intros Hl Hr. unfold run. rewrite Hl. unfold run_list.
  unfold bind at 1. unfold call_installed at 1.
  unfold bind at 1. unfold call_remote at 1. rewrite Hr.
  unfold bind at 1. unfold bind at 1. unfold say at 1, emit at 1.
  unfold ret at 1. unfold bind at 1.
  rewrite mark_loop_self. cbn [unknown_loop]. unfold ret. cbn [app].
  rewrite app_nil_r. reflexivity.
Qed.

(** The whole run of the listing when the registry answers with [remote]. *)
Lemma run_list_reachable (argv1 : string) (args : Args) (w : W)
      (remote : list string) :
  list_modules args = true ->
  get_remote_module_list kiwi w = Some remote ->
  NoDup (get_installed_module_list kiwi w) ->
  NoDup remote ->
  run kiwi argv1 args w
  = (Ret tt, w,
     [CallInstalled; CallRemote]
     ++ map (fun m => entry kiwi w (if py_in m (get_installed_module_list kiwi w)
                               then Installed else Available, m)) remote
     ++ map (fun m => entry kiwi w (Unknown, m))
            (filter (fun m => negb (py_in m remote))
                    (get_installed_module_list kiwi w)))%list.
Proof.
  intros Hl Hr Hi Hn. unfold run. rewrite Hl. unfold run_list.
  unfold bind at 1. unfold call_installed at 1.
  unfold bind at 1. unfold call_remote at 1. rewrite Hr.
  unfold bind at 1. unfold ret at 1. unfold bind at 1.
  rewrite (mark_loop_nodup remote Hn _ w Hi).
  rewrite unknown_loop_spec. reflexivity.
Qed.

Lemma printed_entries (w : W) (f : string -> mark) (l : list string) :
  printed (map (fun m => entry kiwi w (f m, m)) l)
  = map (fun m => listing_line (f m) m (get_module_description kiwi w m)) l.
Proof.
  induction l as [|m l IH]; [reflexivity|]. simpl. now rewrite IH.
Qed.

End Loops.

(** A listing line shows its mark. *)
Lemma listing_line_mark k m d k' m' d' :
  listing_line k m d = listing_line k' m' d' -> k = k'.
Proof.
  unfold listing_line. destruct k, k'; simpl; intros H;
    first [reflexivity | discriminate H].
Qed.

Lemma classify_cases installed remote m :
  classify installed remote m
  = if py_in m remote then (if py_in m installed then Installed else Available)
    else Unknown.
Proof. reflexivity. Qed.

(** *** The listing when the registry cannot be reached *)

(** C1, as the claim states it, fails: with X and Y installed and the registry
    unreachable the two lines carry the mark [x], not the mark [?]. *)
Lemma list_unreachable_not_unknown :
  printed (trace (run (stub None all_fetched "n") "-l" args_list ["X"; "Y"]))
  = ["[x] X: about X"; "[x] Y: about Y"]
  /\ printed (trace (run (stub None all_fetched "n") "-l" args_list ["X"; "Y"]))
     <> map (fun m => listing_line Unknown m ("about " ++ m)) ["X"; "Y"].
Proof.
  split; [reflexivity | vm_compute; discriminate].
Qed.

(** C1, amended: when the registry cannot be reached the listing prints one
    line for each installed module, in the order of the installed list, each
    with the mark [x]; no line has the mark [?]. *)
Theorem list_unreachable_marks_installed
        {W} (kiwi : Kiwi W) (argv1 : string) (args : Args) (w : W) :
  list_modules args = true ->
  get_remote_module_list kiwi w = None ->
  printed (trace (run kiwi argv1 args w))
  = map (fun m => listing_line Installed m (get_module_description kiwi w m))
        (get_installed_module_list kiwi w)
  /\ (forall line m d,
        In line (printed (trace (run kiwi argv1 args w))) ->
        line <> listing_line Unknown m d).
Proof.
  intros Hl Hr. rewrite (run_list_unreachable kiwi argv1 args w Hl Hr).
  unfold trace. cbn [snd app printed].
  rewrite (printed_entries kiwi w (fun _ => Installed)).
  split; [reflexivity|].
  intros line m d Hin ->. apply in_map_iff in Hin as [m' [He _]].
  apply listing_line_mark in He. discriminate He.
Qed.

Lemma list_unreachable_marks_installed_witness :
  printed (trace (run (stub None all_fetched "n") "-l" args_list ["X"; "Y"]))
  = map (fun m => listing_line Installed m ("about " ++ m)) ["X"; "Y"]
  /\ (forall line m d,
        In line (printed (trace (run (stub None all_fetched "n") "-l" args_list
                                     ["X"; "Y"]))) ->
        line <> listing_line Unknown m d).
Proof.
  apply (list_unreachable_marks_installed
           (stub None all_fetched "n") "-l" args_list ["X"; "Y"]);
    reflexivity.
Defined.

(** C5: when the registry cannot be reached the listing does not exit: it
    returns normally, leaves the state of the engine as it was, says the
    warning once after the failed call, calls nothing else of the registry
    or the engine, and prints only lines of installed modules. *)
Theorem list_unreachable_succeeds
        {W} (kiwi : Kiwi W) (argv1 : string) (args : Args) (w : W) :
  list_modules args = true ->
  get_remote_module_list kiwi w = None ->
  outcome (run kiwi argv1 args w) = Ret tt
  /\ final (run kiwi argv1 args w) = w
  /\ exists lines,
       trace (run kiwi argv1 args w)
       = ([CallInstalled; CallRemote; Say warning_local_only] ++ map Print lines)%list
       /\ forall line, In line lines ->
            exists k m, In m (get_installed_module_list kiwi w)
                        /\ line = listing_line k m (get_module_description kiwi w m).
Proof.
  intros Hl Hr. rewrite (run_list_unreachable kiwi argv1 args w Hl Hr).
  unfold outcome, final, trace. cbn [fst snd].
  split; [reflexivity|]. split; [reflexivity|].
  exists (map (fun m => listing_line Installed m (get_module_description kiwi w m))
              (get_installed_module_list kiwi w)).
  split.
  - f_equal. rewrite map_map. reflexivity.
  - intros line Hin. apply in_map_iff in Hin as [m [<- Hm]].
    exists Installed, m. split; [assumption | reflexivity].
Qed.

Lemma list_unreachable_succeeds_witness :
  outcome (run (stub None all_fetched "n") "-l" args_list ["X"; "Y"]) = Ret tt
  /\ final (run (stub None all_fetched "n") "-l" args_list ["X"; "Y"]) = ["X"; "Y"]
  /\ exists lines,
       trace (run (stub None all_fetched "n") "-l" args_list ["X"; "Y"])
       = ([CallInstalled; CallRemote; Say warning_local_only] ++ map Print lines)%list
       /\ forall line, In line lines ->
            exists k m, In m ["X"; "Y"] /\ line = listing_line k m ("about " ++ m).
Proof.
  apply (list_unreachable_succeeds
           (stub None all_fetched "n") "-l" args_list ["X"; "Y"]);
    reflexivity.
Defined.

(** *** The listing when the registry answers *)

(** C6: when the registry answers, and neither list names a module twice,
    the listing prints one line for each name of the union of the installed
    and the remote names and no other line, and the mark of a name is [x]
    when it is in both lists, a blank when it is remote only and [?] when it
    is installed only. *)
Theorem list_reachable_classifies
        {W} (kiwi : Kiwi W) (argv1 : string) (args : Args) (w : W)
        (remote : list string) :
  list_modules args = true ->
  get_remote_module_list kiwi w = Some remote ->
  NoDup (get_installed_module_list kiwi w) ->
  NoDup remote ->
  exists entries : list (mark * string),
    run kiwi argv1 args w
    = (Ret tt, w, ([CallInstalled; CallRemote] ++ map (entry kiwi w) entries)%list)
    /\ NoDup (map snd entries)
    /\ (forall m, In m (map snd entries)
                  <-> In m (get_installed_module_list kiwi w) \/ In m remote)
    /\ (forall k m, In (k, m) entries ->
                    k = classify (get_installed_module_list kiwi w) remote m).
Proof.
  intros Hl Hr Hi Hn.
  set (installed := get_installed_module_list kiwi w) in *.
  exists (map (fun m => (if py_in m installed then Installed else Available, m)) remote
          ++ map (fun m => (Unknown, m))
                 (filter (fun m => negb (py_in m remote)) installed))%list.
  split; [|split; [|split]].
  - rewrite (run_list_reachable kiwi argv1 args w remote Hl Hr Hi Hn).
    fold installed. rewrite map_app, !map_map. reflexivity.
  - rewrite map_app, !map_map. cbn [snd]. rewrite !map_id.
    apply NoDup_app; [assumption | now apply NoDup_filter |].
    intros m Hm Hf. apply filter_In in Hf as [_ Hf].
    apply negb_true_iff, py_in_not_In in Hf. contradiction.
  - intros m. rewrite map_app, !map_map. cbn [snd]. rewrite !map_id.
    rewrite in_app_iff, filter_In, negb_true_iff, py_in_not_In.
    destruct (in_dec string_dec m remote); tauto.
  - intros k m Hin. rewrite classify_cases.
    apply in_app_iff in Hin as [Hin|Hin]; apply in_map_iff in Hin as [m' [He Hm']];
      inversion He; subst; clear He.
    + apply py_in_In in Hm'. now rewrite Hm'.
    + apply filter_In in Hm' as [_ Hm']. apply negb_true_iff in Hm'.
      now rewrite Hm'.
Qed.

Lemma list_reachable_classifies_witness :
  exists entries : list (mark * string),
    run (stub (Some ["Y"; "Z"]) all_fetched "n") "-l" args_list ["X"; "Y"]
    = (Ret tt, ["X"; "Y"],
       ([CallInstalled; CallRemote]
        ++ map (entry (stub (Some ["Y"; "Z"]) all_fetched "n") ["X"; "Y"]) entries)%list)
    /\ NoDup (map snd entries)
    /\ (forall m, In m (map snd entries) <-> In m ["X"; "Y"] \/ In m ["Y"; "Z"])
    /\ (forall k m, In (k, m) entries -> k = classify ["X"; "Y"] ["Y"; "Z"] m).
Proof.
  apply (list_reachable_classifies
           (stub (Some ["Y"; "Z"]) all_fetched "n") "-l" args_list ["X"; "Y"]
           ["Y"; "Z"]).
  - reflexivity.
  - reflexivity.
  - repeat constructor; simpl; intuition discriminate.
  - repeat constructor; simpl; intuition discriminate.
Defined.

End Listing.

(** ** Facts about fetching and updating (lines 31-77) *)

Module Fetching.
Import Client.

Lemma bind_ret {W A B} (m : M W A) (f : A -> M W B) w a w1 t1 r w2 t2 :
  m w = (Ret a, w1, t1) ->
  f a w1 = (r, w2, t2) ->
  bind m f w = (r, w2, (t1 ++ t2)%list).
Proof. intros H1 H2. unfold bind. now rewrite H1, H2. Qed.

Lemma bind_exit {W A B} (m : M W A) (f : A -> M W B) w c w1 t1 :
  m w = (Exit c, w1, t1) -> bind m f w = (Exit c, w1, t1).
Proof. intros H. unfold bind. now rewrite H. Qed.

Lemma fetch_calls_app t1 t2 :
  fetch_calls (t1 ++ t2) = (fetch_calls t1 ++ fetch_calls t2)%list.
Proof.
  induction t1 as [|e t1 IH]; [reflexivity|].
  destruct e; simpl; rewrite IH; reflexivity.
Qed.

Lemma prompts_app t1 t2 : prompts (t1 ++ t2) = (prompts t1 ++ prompts t2)%list.
Proof.
  induction t1 as [|e t1 IH]; [reflexivity|].
  destruct e; simpl; rewrite IH; reflexivity.
Qed.

Lemma output_fetch_calls t : forallb is_output t = true -> fetch_calls t = [].
Proof.
  induction t as [|e t IH]; [reflexivity|].
  simpl. intros H. apply andb_prop in H as [He Ht].
  destruct e; try discriminate He; now apply IH.
Qed.

Lemma output_prompts t : forallb is_output t = true -> prompts t = [].
Proof.
  induction t as [|e t IH]; [reflexivity|].
  simpl. intros H. apply andb_prop in H as [He Ht].
  destruct e; try discriminate He; now apply IH.
Qed.

Lemma output_not_call t e :
  forallb is_output t = true -> In e t -> is_output e = true.
Proof. intros H. now apply forallb_forall. Qed.

Lemma two_members (a b : string) l : In a l -> In b l -> a <> b -> (1 < len l)%Z.
Proof.
  unfold len. destruct l as [|x [|y l]]; simpl; intros Ha Hb Hab.
  - contradiction.
  - destruct Ha as [<-|[]], Hb as [<-|[]]. congruence.
  - lia.
Qed.

Lemma len_pos {A} (l : list A) : l <> [] -> (0 <? len l)%Z = true.
Proof.
  destruct l; [congruence|]. intros _. apply Z.ltb_lt. unfold len. simpl. lia.
Qed.

Section Facts.
Context {W : Type}.
Variable kiwi : Kiwi W.
Variable argv1 : string.

Lemma fetch_results_output args modules f u fl w :
  exists t, fetch_results (W:=W) args modules f u fl w = (Ret tt, w, t)
            /\ forallb is_output t = true.
Proof.
  unfold fetch_results. destruct (truthy (get_modules args)).
  - unfold bind at 1. unfold say at 1, emit at 1.
    unfold bind at 1. unfold print at 1, emit at 1.
    unfold bind at 1. unfold print at 1, emit at 1.
    unfold bind at 1. unfold print at 1, emit at 1.
    destruct (len modules =? len f + len u + len fl)%Z.
    + eexists. unfold ret. cbn [app]. split; reflexivity.
    + eexists. unfold print, emit. cbn [app]. split; reflexivity.
  - exists []. split; reflexivity.
Qed.

Lemma update_results_output args f u fl w :
  exists t, update_results (W:=W) args f u fl w = (Ret tt, w, t)
            /\ forallb is_output t = true.
Proof.
  unfold update_results.
  destruct (truthy (update_modules args) || (0 <? len u)%Z).
  - eexists. unfold bind, say, print, emit. cbn. split; reflexivity.
  - exists []. split; reflexivity.
Qed.

(** Nothing is outdated: the results are printed and the run returns. *)
Lemma report_none args modules f fl w :
  exists t, report kiwi args modules (f, [], fl) w = (Ret tt, w, t)
            /\ forallb is_output t = true.
Proof.
  unfold report.
  destruct (fetch_results_output args modules f [] fl w) as [t1 [E1 O1]].
  destruct (update_results_output args f [] fl w) as [t2 [E2 O2]].
  exists (t1 ++ [] ++ t2)%list. split.
  - eapply bind_ret; [exact E1|].
    eapply bind_ret; [reflexivity | exact E2].
  - rewrite !forallb_app, O1, O2. reflexivity.
Qed.

(** Some modules are outdated and the answer is not [y]: exit 0 after the
    question. *)
Lemma report_declined args modules f u fl w :
  u <> [] ->
  ask kiwi "Update the outdated modules?" ["y"; "n"] <> "y" ->
  exists t, report kiwi args modules (f, u, fl) w
            = (Exit 0%Z, w, (t ++ [update_prompt])%list)
            /\ forallb is_output t = true.
Proof.
  intros Hu Ha. unfold report.
  destruct (fetch_results_output args modules f u fl w) as [t1 [E1 O1]].
  exists t1. split; [|assumption].
  eapply bind_ret; [exact E1|].
  apply bind_exit.
  unfold update_outdated. rewrite (len_pos u Hu).
  apply String.eqb_neq in Ha.
  unfold bind, call_ask, sys_exit. rewrite Ha. reflexivity.
Qed.

(** Some modules are outdated and the answer is [y]: they are fetched again
    as updates after the question. *)
Lemma report_accepted args modules f u fl w :
  u <> [] ->
  ask kiwi "Update the outdated modules?" ["y"; "n"] = "y" ->
  exists t t',
    report kiwi args modules (f, u, fl) w
    = (Ret tt, snd (fetch_modules kiwi u true w),
       (t ++ [update_prompt; CallFetch u true] ++ t')%list)
    /\ forallb is_output t = true /\ forallb is_output t' = true.
Proof.
  intros Hu Ha. unfold report.
  destruct (fetch_results_output args modules f u fl w) as [t1 [E1 O1]].
  destruct (fetch_modules kiwi u true w) as [[[f' u'] fl'] w'] eqn:Ef.
  destruct (update_results_output args f' u fl' w') as [t2 [E2 O2]].
  exists t1, t2. split; [|split; assumption].
  eapply bind_ret; [exact E1|].
  eapply bind_ret.
  - unfold update_outdated. rewrite (len_pos u Hu).
    cbv beta iota delta [bind call_ask call_fetch ret]. rewrite Ha.
    change (String.eqb "y" "y") with true. cbv beta iota.
    rewrite Ef. reflexivity.
  - exact E2.
Qed.

(** The request names ['all'] and something else. *)
Lemma collect_conflict args w :
  py_in "all" (requested args) = true ->
  (1 < len (requested args))%Z ->
  exists t, collect kiwi argv1 args w = (Exit 1%Z, w, t)
            /\ forallb is_output t = true.
Proof.
  intros Hall Hlen. unfold collect. rewrite Hall.
  apply Z.ltb_lt in Hlen. rewrite Hlen.
  eexists. unfold bind, say, print, emit, sys_exit. cbn. split; reflexivity.
Qed.

(** [collect] leaves the engine alone and neither fetches nor asks. *)
Lemma collect_trace args w r w' t :
  collect kiwi argv1 args w = (r, w', t) ->
  w' = w /\ fetch_calls t = [] /\ prompts t = [].
Proof.
  unfold collect. destruct (py_in "all" (requested args)).
  - destruct (1 <? len (requested args))%Z.
    + unfold bind, say, print, emit, sys_exit. cbn. intros H.
      inversion H; subst. repeat split; reflexivity.
    + destruct (truthy (get_modules args)).
      * unfold bind, call_remote. destruct (get_remote_module_list kiwi w);
          unfold ret, bind, say, emit, sys_exit; cbn; intros H;
          inversion H; subst; repeat split; reflexivity.
      * unfold call_installed. intros H. inversion H; subst.
        repeat split; reflexivity.
  - unfold ret. intros H. inversion H; subst. repeat split; reflexivity.
Qed.

(** The run of a fetch or update whose request [collect] accepts. *)
Lemma run_fetch_collected args w modules t0 r w1 o w2 t2 :
  list_modules args = false ->
  truthy (get_modules args) || truthy (update_modules args) = true ->
  collect kiwi argv1 args w = (Ret modules, w, t0) ->
  fetch_modules kiwi modules (is_some (update_modules args)) w = (r, w1) ->
  report kiwi args modules r w1 = (o, w2, t2) ->
  run kiwi argv1 args w
  = (o, w2, (t0 ++ [CallFetch modules (is_some (update_modules args))] ++ t2)%list).
Proof.
  intros Hl Ht Hc Hf Hr. unfold run. rewrite Hl, Ht. unfold run_fetch.
  eapply bind_ret; [exact Hc|].
  eapply bind_ret.
  - unfold call_fetch. rewrite Hf. reflexivity.
  - exact Hr.
Qed.

(** The run of a fetch or update whose request [collect] refuses. *)
Lemma run_fetch_refused args w c t0 :
  list_modules args = false ->
  truthy (get_modules args) || truthy (update_modules args) = true ->
  collect kiwi argv1 args w = (Exit c, w, t0) ->
  run kiwi argv1 args w = (Exit c, w, t0).
Proof.
  intros Hl Ht Hc. unfold run. rewrite Hl, Ht. unfold run_fetch.
  now apply bind_exit.
Qed.

(** What follows the call of line 55 calls neither list of modules. *)
Lemma report_no_listing args modules r w :
  ~ In CallRemote (snd (report kiwi args modules r w))
  /\ ~ In CallInstalled (snd (report kiwi args modules r w)).
Proof.
  destruct r as [[f u] fl].
  assert (Hout : forall t e, forallb is_output t = true -> In e t ->
                             e <> CallRemote /\ e <> CallInstalled).
  { intros t e Ht He. pose proof (output_not_call t e Ht He) as Ho.
    split; intros ->; discriminate Ho. }
  destruct u as [|m u].
  - destruct (report_none args modules f fl w) as [t [E O]]. rewrite E. cbn [snd].
    split; intros Hin; destruct (Hout t _ O Hin); congruence.
  - destruct (string_dec (ask kiwi "Update the outdated modules?" ["y"; "n"]) "y")
      as [Ha|Ha].
    + destruct (report_accepted args modules f (m :: u) fl w) as [t [t' [E [O O']]]];
        [discriminate | assumption |].
      rewrite E. cbn [snd].
      split; intros Hin; apply in_app_iff in Hin as [Hin|[Hin|[Hin|Hin]]];
        try discriminate Hin;
        try (destruct (Hout t _ O Hin); congruence);
        try (destruct (Hout t' _ O' Hin); congruence).
    + destruct (report_declined args modules f (m :: u) fl w) as [t [E O]];
        [discriminate | assumption |].
      rewrite E. cbn [snd].
      split; intros Hin; apply in_app_iff in Hin as [Hin|[Hin|[]]];
        try discriminate Hin; destruct (Hout t _ O Hin); congruence.
Qed.

End Facts.

Lemma requested_truthy args m :
  In m (requested args) ->
  truthy (get_modules args) || truthy (update_modules args) = true.
Proof.
  unfold requested. destruct (truthy (get_modules args)); [reflexivity|].
  destruct (update_modules args) as [[|x l]|]; simpl; tauto.
Qed.

(** C4: a request that names ['all'] and another module is refused: the run
    exits with status 1 after writing to the terminal only, so that neither
    the registry nor the engine is called, and the state of the engine is
    as it was. *)
Theorem all_with_names_rejected
        {W} (kiwi : Kiwi W) (argv1 : string) (args : Args) (w : W)
        (other : string) :
  list_modules args = false ->
  In "all" (requested args) ->
  In other (requested args) ->
  other <> "all" ->
  outcome (run kiwi argv1 args w) = Exit 1%Z
  /\ final (run kiwi argv1 args w) = w
  /\ forallb is_output (trace (run kiwi argv1 args w)) = true
  /\ fetch_calls (trace (run kiwi argv1 args w)) = []
  /\ ~ In CallRemote (trace (run kiwi argv1 args w)).
Proof.
  intros Hl Hall Hother Hne.
  destruct (collect_conflict kiwi argv1 args w) as [t [E O]].
  - now apply py_in_In.
  - apply (two_members "all" other); congruence.
  - rewrite (run_fetch_refused kiwi argv1 args w 1%Z t Hl
               (requested_truthy args _ Hall) E).
    unfold outcome, final, trace. cbn [fst snd].
    repeat split; try assumption.
    + now apply output_fetch_calls.
    + intros Hin. pose proof (output_not_call t _ O Hin) as Ho. discriminate Ho.
Qed.

Lemma all_with_names_rejected_witness :
  outcome (run (stub (Some ["Y"; "Z"]) all_fetched "n") "-g"
               (args_get ["all"; "b"]) ["X"]) = Exit 1%Z
  /\ final (run (stub (Some ["Y"; "Z"]) all_fetched "n") "-g"
                (args_get ["all"; "b"]) ["X"]) = ["X"]
  /\ forallb is_output
       (trace (run (stub (Some ["Y"; "Z"]) all_fetched "n") "-g"
                   (args_get ["all"; "b"]) ["X"])) = true
  /\ fetch_calls
       (trace (run (stub (Some ["Y"; "Z"]) all_fetched "n") "-g"
                   (args_get ["all"; "b"]) ["X"])) = []
  /\ ~ In CallRemote
         (trace (run (stub (Some ["Y"; "Z"]) all_fetched "n") "-g"
                     (args_get ["all"; "b"]) ["X"])).
Proof.
  apply (all_with_names_rejected
           (stub (Some ["Y"; "Z"]) all_fetched "n") "-g" (args_get ["all"; "b"])
           ["X"] "b").
  - reflexivity.
  - simpl. tauto.
  - simpl. tauto.
  - discriminate.
Defined.

(** C10: when the engine reports modules as outdated and the answer to the
    question is not [y] (so when it is [n]), the run exits with status 0,
    the engine has been called for the request only, and its state, with the
    installed modules, is the one that this call left. *)
Theorem declined_update_exits_zero
        {W} (kiwi : Kiwi W) (argv1 : string) (args : Args) (w w1 : W)
        (modules fetched outdated failed : list string) (t0 : list event) :
  list_modules args = false ->
  truthy (get_modules args) || truthy (update_modules args) = true ->
  collect kiwi argv1 args w = (Ret modules, w, t0) ->
  fetch_modules kiwi modules (is_some (update_modules args)) w
  = ((fetched, outdated, failed), w1) ->
  outdated <> [] ->
  ask kiwi "Update the outdated modules?" ["y"; "n"] <> "y" ->
  outcome (run kiwi argv1 args w) = Exit 0%Z
  /\ fetch_calls (trace (run kiwi argv1 args w))
     = [(modules, is_some (update_modules args))]
  /\ final (run kiwi argv1 args w) = w1
  /\ get_installed_module_list kiwi (final (run kiwi argv1 args w))
     = get_installed_module_list kiwi w1.
Proof.
  intros Hl Ht Hc Ef Hu Ha.
  destruct (collect_trace kiwi argv1 args w _ _ _ Hc) as [_ [Hf0 _]].
  destruct (report_declined kiwi args modules fetched outdated failed w1 Hu Ha)
    as [t [E O]].
  rewrite (run_fetch_collected kiwi argv1 args w _ _ _ _ _ _ _ Hl Ht Hc Ef E).
  unfold outcome, final, trace. cbn [fst snd].
  split; [reflexivity|]. split; [|split; reflexivity].
  rewrite !fetch_calls_app, Hf0, (output_fetch_calls t O). reflexivity.
Qed.

Lemma declined_update_exits_zero_witness :
  outcome (run (stub (Some ["Y"; "Z"]) all_outdated "n") "-g"
               (args_get ["a"; "b"]) ["X"]) = Exit 0%Z
  /\ fetch_calls (trace (run (stub (Some ["Y"; "Z"]) all_outdated "n") "-g"
                             (args_get ["a"; "b"]) ["X"]))
     = [(["a"; "b"], false)]
  /\ final (run (stub (Some ["Y"; "Z"]) all_outdated "n") "-g"
                (args_get ["a"; "b"]) ["X"]) = ["X"]
  /\ final (run (stub (Some ["Y"; "Z"]) all_outdated "n") "-g"
                (args_get ["a"; "b"]) ["X"]) = ["X"].
Proof.
  apply (declined_update_exits_zero
           (stub (Some ["Y"; "Z"]) all_outdated "n") "-g" (args_get ["a"; "b"])
           ["X"] ["X"] ["a"; "b"] [] ["a"; "b"] [] []).
  - reflexivity.
  - reflexivity.
  - reflexivity.
  - reflexivity.
  - discriminate.
  - discriminate.
Defined.

End Fetching.

(** ** Facts about the dependency resolver *)

Module Resolver.
Import Engine.

Section Catalog.
Variable inst : list ModuleName.
Variable cat : RemoteCatalog.





(** *** Chains and cycle paths *)






(** *** The order in which modules are added *)







(** *** The traversal *)

Variable roots : list ModuleName.










End Catalog.





(** Scenarios: a cycle of two modules, a dependency before its dependent, a
    module that names itself although it is installed, a dependency that the
    catalog does not hold. *)
Example resolve_cycle :
  resolve ["A"] [] (catalog world_cycle) = Some (inl (DependencyCycle ["A"; "B"; "A"])).
Proof. reflexivity. Qed.

Example resolve_dependency_first :
  resolve ["B"] ["C"; "L"] (catalog world_abc) = Some (inr ["A"; "B"]).
Proof. reflexivity. Qed.

Example resolve_self_dependency :
  resolve ["S"] ["S"] [module "S" ["S"]] = Some (inl (DependencyCycle ["S"; "S"])).
Proof. reflexivity. Qed.

Example resolve_unknown_dependency :
  resolve ["S"] [] [module "S" ["T"]] = Some (inl (UnknownDependency "S" "T")).
Proof. reflexivity. Qed.


End Resolver.

(** ** More facts about the listing: any lists, any flags *)

Module ListingFacts.
Import Client Marking.

Lemma py_remove_perm m inst :
  py_in m inst = true -> Permutation inst (m :: py_remove m inst).
Proof.
  induction inst as [|x l IH]; [discriminate|].
  rewrite py_in_cons. cbn [py_remove].
  destruct (String.eqb_spec m x) as [->|Hne]; [reflexivity|].
  cbn [orb]. intros H. rewrite (IH H) at 1. apply perm_swap.
Qed.

Lemma marks_names modules :
  forall installed, map snd (marks modules installed) = modules.
Proof.
  induction modules as [|m rest IH]; intros installed; [reflexivity|].
  cbn [marks map snd]. now rewrite IH.
Qed.

Lemma marks_known modules :
  forall installed e, In e (marks modules installed) -> fst e <> Unknown.
Proof.
  induction modules as [|m rest IH]; intros installed e; [intros []|].
  cbn [marks]. intros [<-|H]; [|exact (IH _ e H)].
  cbn [fst]. destruct (py_in m installed); discriminate.
Qed.

(** Each line marked as installed takes one occurrence out of [installed];
    what is left is the rest of it. *)
Lemma marks_account modules :
  forall installed,
    Permutation
      (map snd (filter is_installed_mark (marks modules installed))
       ++ leftover modules installed)
      installed.
Proof.
  induction modules as [|m rest IH]; intros installed; [reflexivity|].
  cbn [marks leftover filter]. destruct (py_in m installed) eqn:Hin.
  - cbn [is_installed_mark fst map snd app].
    eapply perm_trans; [apply perm_skip, IH|].
    apply Permutation_sym. now apply py_remove_perm.
  - cbn [is_installed_mark fst]. apply IH.
Qed.

Section Loop.
Context {W : Type}.
Variable kiwi : Kiwi W.

Lemma mark_loop_marks modules :
  forall installed (w : W),
    mark_loop kiwi modules installed w
    = (Ret (leftover modules installed), w,
       map (entry kiwi w) (marks modules installed)).
Proof.
  induction modules as [|m rest IH]; intros installed w; [reflexivity|].
  cbn [mark_loop]. unfold bind at 1. unfold describe at 1.
  unfold bind at 1. unfold print at 1, emit at 1.
  rewrite IH. reflexivity.
Qed.

(** The whole run of the listing, whatever the two lists are. *)
Lemma run_list_any (argv1 : string) (args : Args) (w : W) :
  list_modules args = true ->
  run kiwi argv1 args w
  = (Ret tt, w,
     header (get_remote_module_list kiwi w)
     ++ map (entry kiwi w)
            (marks (listed (get_remote_module_list kiwi w)
                           (get_installed_module_list kiwi w))
                   (get_installed_module_list kiwi w))
     ++ map (fun m => entry kiwi w (Unknown, m))
            (leftover (listed (get_remote_module_list kiwi w)
                              (get_installed_module_list kiwi w))
                      (get_installed_module_list kiwi w)))%list.
Proof.
  intros Hl. unfold run. rewrite Hl. unfold run_list.
  unfold bind at 1. unfold call_installed at 1.
  unfold bind at 1. unfold call_remote at 1.
  destruct (get_remote_module_list kiwi w) as [remote|]; cbn [listed header].
  - unfold bind at 1. unfold ret at 1. unfold bind at 1.
    rewrite mark_loop_marks, Listing.unknown_loop_spec. reflexivity.
  - unfold bind at 1. unfold bind at 1. unfold say at 1, emit at 1.
    unfold ret at 1. unfold bind at 1.
    rewrite mark_loop_marks, Listing.unknown_loop_spec. reflexivity.
Qed.

End Loop.

Lemma header_events remote e :
  In e (header remote) -> e = CallInstalled \/ e = CallRemote \/ is_output e = true.
Proof.
  destruct remote; cbn; intros H;
    repeat (destruct H as [<-|H]; [auto|]); contradiction.
Qed.

Lemma fetch_calls_entries {W} (kiwi : Kiwi W) w l :
  fetch_calls (map (entry kiwi w) l) = [] /\ prompts (map (entry kiwi w) l) = [].
Proof. induction l as [|e l IH]; [split; reflexivity | exact IH]. Qed.



(** X2: the listing accounts for every line and every installed module, also
    when a list names a module more than once.  The lines are those of the
    modules of the list that is walked (the remote list, or the installed one
    when the registry cannot be reached), in its order and none of them
    marked [?], followed by the lines marked [?]; and the names marked [x]
    together with the names marked [?] are the installed list up to order,
    each as often as it is installed. *)
Theorem listing_accounts_for_installed
        {W} (kiwi : Kiwi W) (argv1 : string) (args : Args) (w : W) :
  list_modules args = true ->
  exists (known : list (mark * string)) (unknown : list string),
    trace (run kiwi argv1 args w)
    = (header (get_remote_module_list kiwi w)
       ++ map (entry kiwi w) known
       ++ map (fun m => entry kiwi w (Unknown, m)) unknown)%list
    /\ map snd known
       = listed (get_remote_module_list kiwi w) (get_installed_module_list kiwi w)
    /\ (forall e, In e known -> fst e <> Unknown)
    /\ Permutation (map snd (filter is_installed_mark known) ++ unknown)
                   (get_installed_module_list kiwi w).
Proof.
  intros Hl.
  exists (marks (listed (get_remote_module_list kiwi w)
                        (get_installed_module_list kiwi w))
                (get_installed_module_list kiwi w)),
         (leftover (listed (get_remote_module_list kiwi w)
                           (get_installed_module_list kiwi w))
                   (get_installed_module_list kiwi w)).
  split; [|split; [|split]].
  - now rewrite (run_list_any kiwi argv1 args w Hl).
  - apply marks_names.
  - apply marks_known.
  - apply marks_account.
Qed.

Lemma listing_accounts_for_installed_witness :
  exists (known : list (mark * string)) (unknown : list string),
    trace (run (stub (Some ["Y"; "Y"; "Z"]) all_fetched "n") "-l" args_list
               ["X"; "Y"; "X"])
    = ([CallInstalled; CallRemote]
       ++ map (entry (stub (Some ["Y"; "Y"; "Z"]) all_fetched "n") ["X"; "Y"; "X"])
              known
       ++ map (fun m => entry (stub (Some ["Y"; "Y"; "Z"]) all_fetched "n")
                              ["X"; "Y"; "X"] (Unknown, m)) unknown)%list
    /\ map snd known = ["Y"; "Y"; "Z"]
    /\ (forall e, In e known -> fst e <> Unknown)
    /\ Permutation (map snd (filter is_installed_mark known) ++ unknown)
                   ["X"; "Y"; "X"].
Proof.
  apply (listing_accounts_for_installed
           (stub (Some ["Y"; "Y"; "Z"]) all_fetched "n") "-l" args_list
           ["X"; "Y"; "X"]).
  reflexivity.
Defined.

End ListingFacts.

(** ** More facts about fetching, updating and the self update *)

Module RunFacts.
Import Client Marking.

Lemma outputs_app t1 t2 :
  forallb is_output t1 = true -> forallb is_output t2 = true ->
  forallb is_output (t1 ++ t2) = true.
Proof. intros H1 H2. now rewrite forallb_app, H1, H2. Qed.

Section Facts.
Context {W : Type}.
Variable kiwi : Kiwi W.
Variable argv1 : string.

(** The listing neither fetches nor asks. *)
Lemma run_list_quiet args w :
  list_modules args = true ->
  exists t, run kiwi argv1 args w = (Ret tt, w, t)
            /\ fetch_calls t = [] /\ prompts t = [].
Proof.
  intros Hl. rewrite (ListingFacts.run_list_any kiwi argv1 args w Hl).
  eexists. split; [reflexivity|].
  rewrite !Fetching.fetch_calls_app, !Fetching.prompts_app.
  rewrite <- (map_map (fun m => (Unknown, m)) (entry kiwi w)).
  destruct (ListingFacts.fetch_calls_entries kiwi w
              (marks (listed (get_remote_module_list kiwi w)
                             (get_installed_module_list kiwi w))
                     (get_installed_module_list kiwi w))) as [F1 P1].
  destruct (ListingFacts.fetch_calls_entries kiwi w
              (map (fun m => (Unknown, m))
                   (leftover (listed (get_remote_module_list kiwi w)
                                     (get_installed_module_list kiwi w))
                             (get_installed_module_list kiwi w)))) as [F2 P2].
  rewrite F1, F2, P1, P2.
  destruct (get_remote_module_list kiwi w); split; reflexivity.
Qed.

(** Lines 80-83 and the end of [run]. *)
Lemma run_other args w :
  list_modules args = false ->
  truthy (get_modules args) || truthy (update_modules args) = false ->
  run kiwi argv1 args w
  = if self_update args
    then (Ret tt, snd (runtime_update kiwi "I have an update" w),
          CallSelfUpdate "I have an update"
          :: (if fst (runtime_update kiwi "I have an update" w)
              then [Say "I'm up to date"] else []))
    else (Ret tt, w, []).
Proof.
  intros Hl Ht. unfold run. rewrite Hl, Ht.
  destruct (self_update args); [|reflexivity].
  unfold run_self_update, bind, call_self_update.
  destruct (runtime_update kiwi "I have an update" w) as [[|] w']; reflexivity.
Qed.

(** [collect] either refuses with status 1 or gives the modules to fetch
    after at most one call for a list of modules. *)
Lemma collect_cases args w :
  (exists t, collect kiwi argv1 args w = (Exit 1%Z, w, t)
             /\ fetch_calls t = [] /\ prompts t = [])
  \/ (exists modules t0,
         collect kiwi argv1 args w = (Ret modules, w, t0)
         /\ (t0 = [] \/ t0 = [CallRemote] \/ t0 = [CallInstalled])).
Proof.
  unfold collect. destruct (py_in "all" (requested args)).
  - destruct (1 <? len (requested args))%Z.
    + left. eexists. unfold bind, say, print, emit, sys_exit. cbn.
      repeat split; reflexivity.
    + destruct (truthy (get_modules args)).
      * unfold bind, call_remote.
        destruct (get_remote_module_list kiwi w) as [remote|].
        -- right. exists remote, [CallRemote]. split; [reflexivity | tauto].
        -- left. eexists. unfold bind, say, emit, sys_exit. cbn.
           repeat split; reflexivity.
      * right. exists (get_installed_module_list kiwi w), [CallInstalled].
        split; [reflexivity | tauto].
  - right. exists (requested args), []. split; [reflexivity | tauto].
Qed.

Lemma collected_quiet (t0 : list event) :
  t0 = [] \/ t0 = [CallRemote] \/ t0 = [CallInstalled] ->
  fetch_calls t0 = [] /\ prompts t0 = [].
Proof. intros [-> | [-> | ->]]; split; reflexivity. Qed.

(** The three ways in which lines 57-77 end. *)
Lemma report_cases args modules f u fl w1 :
  (u = []
   /\ exists t, report kiwi args modules (f, u, fl) w1 = (Ret tt, w1, t)
                /\ forallb is_output t = true)
  \/ (u <> [] /\ ask kiwi "Update the outdated modules?" ["y"; "n"] <> "y"
      /\ exists t, report kiwi args modules (f, u, fl) w1
                   = (Exit 0%Z, w1, (t ++ [update_prompt])%list)
                   /\ forallb is_output t = true)
  \/ (u <> [] /\ ask kiwi "Update the outdated modules?" ["y"; "n"] = "y"
      /\ exists t t',
           report kiwi args modules (f, u, fl) w1
           = (Ret tt, snd (fetch_modules kiwi u true w1),
              (t ++ [update_prompt; CallFetch u true] ++ t')%list)
           /\ forallb is_output t = true /\ forallb is_output t' = true).
Proof.
  destruct u as [|m u].
  - left. split; [reflexivity|]. apply Fetching.report_none.
  - right. destruct (string_dec (ask kiwi "Update the outdated modules?" ["y"; "n"]) "y") as [Ha|Ha].
    + right. split; [discriminate|]. split; [assumption|].
      apply Fetching.report_accepted; [discriminate | assumption].
    + left. split; [discriminate|]. split; [assumption|].
      apply Fetching.report_declined; [discriminate | assumption].
Qed.

(** The run as a whole: it lists or updates itself or does nothing; or it
    refuses the request; or it calls the engine and ends in one of the three
    ways of [report]. *)
Lemma run_shape args w :
  (exists w' t, run kiwi argv1 args w = (Ret tt, w', t)
                /\ fetch_calls t = [] /\ prompts t = [])
  \/ (exists t, run kiwi argv1 args w = (Exit 1%Z, w, t)
                /\ fetch_calls t = [] /\ prompts t = [])
  \/ (exists modules t0 f u fl w1,
         fetch_calls t0 = [] /\ prompts t0 = []
         /\ fetch_modules kiwi modules (is_some (update_modules args)) w
            = ((f, u, fl), w1)
         /\ ((u = []
              /\ exists t,
                   run kiwi argv1 args w
                   = (Ret tt, w1,
                      (t0 ++ [CallFetch modules (is_some (update_modules args))]
                       ++ t)%list)
                   /\ forallb is_output t = true)
             \/ (u <> [] /\ ask kiwi "Update the outdated modules?" ["y"; "n"] <> "y"
                 /\ exists t,
                      run kiwi argv1 args w
                      = (Exit 0%Z, w1,
                         (t0 ++ [CallFetch modules (is_some (update_modules args))]
                          ++ t ++ [update_prompt])%list)
                      /\ forallb is_output t = true)
             \/ (u <> [] /\ ask kiwi "Update the outdated modules?" ["y"; "n"] = "y"
                 /\ exists t t',
                      run kiwi argv1 args w
                      = (Ret tt, snd (fetch_modules kiwi u true w1),
                         (t0 ++ [CallFetch modules (is_some (update_modules args))]
                          ++ t ++ [update_prompt; CallFetch u true] ++ t')%list)
                      /\ forallb is_output t = true
                      /\ forallb is_output t' = true))).
Proof.
  destruct (list_modules args) eqn:Hl.
  { left. destruct (run_list_quiet args w Hl) as [t H]. now exists w, t. }
  destruct (truthy (get_modules args) || truthy (update_modules args)) eqn:Ht.
  2:{ left. rewrite (run_other args w Hl Ht). destruct (self_update args).
      - eexists. eexists. split; [reflexivity|].
        destruct (fst (runtime_update kiwi "I have an update" w));
          split; reflexivity.
      - exists w, []. repeat split; reflexivity. }
  destruct (collect_cases args w) as [[t [E [F P]]]|[modules [t0 [E Ht0]]]].
  { right; left. exists t. split; [|tauto].
    now apply Fetching.run_fetch_refused. }
  right; right.
  destruct (fetch_modules kiwi modules (is_some (update_modules args)) w)
    as [[[f u] fl] w1] eqn:Ef.
  exists modules, t0, f, u, fl, w1.
  destruct (collected_quiet t0 Ht0) as [F0 P0].
  split; [assumption|]. split; [assumption|]. split; [exact Ef|].
  destruct (report_cases args modules f u fl w1)
    as [[Hu [t [Er O]]]|[[Hu [Ha [t [Er O]]]]|[Hu [Ha [t [t' [Er [O O']]]]]]]].
  - left. split; [assumption|]. exists t. split; [|assumption].
    now apply (Fetching.run_fetch_collected kiwi argv1 args w modules t0
                 (f, u, fl) w1).
  - right; left. split; [assumption|]. split; [assumption|].
    exists t. split; [|assumption].
    now apply (Fetching.run_fetch_collected kiwi argv1 args w modules t0
                 (f, u, fl) w1).
  - right; right. split; [assumption|]. split; [assumption|].
    exists t, t'. split; [|split; assumption].
    now apply (Fetching.run_fetch_collected kiwi argv1 args w modules t0
                 (f, u, fl) w1).
Qed.

(** Lines 58-64 for a [get] request. *)
Lemma fetch_results_get args modules f u fl w :
  truthy (get_modules args) = true ->
  fetch_results (W:=W) args modules f u fl w
  = (Ret tt, w,
     [Say "fetch results";
      Print (tab ++ "* " ++ str_of_Z (len f) ++ " new modules fetched");
      Print (tab ++ "* " ++ str_of_Z (len fl) ++ " modules could not be fetched");
      Print (tab ++ "* " ++ str_of_Z (len u) ++ " modules have an available update")]
     ++ (if (len modules =? len f + len u + len fl)%Z then []
         else [Print (tab ++ "* "
                      ++ str_of_Z (len modules - len f - len u - len fl)
                      ++ " modules are present and up to date")]))%list.
Proof.
  intros Hg. unfold fetch_results. rewrite Hg.
  unfold bind at 1. unfold say at 1, emit at 1.
  unfold bind at 1. unfold print at 1, emit at 1.
  unfold bind at 1. unfold print at 1, emit at 1.
  unfold bind at 1. unfold print at 1, emit at 1.
  destruct (len modules =? len f + len u + len fl)%Z; reflexivity.
Qed.

Lemma fetch_results_other args modules f u fl w :
  truthy (get_modules args) = false ->
  fetch_results (W:=W) args modules f u fl w = (Ret tt, w, []).
Proof. intros Hg. unfold fetch_results. now rewrite Hg. Qed.

(** Lines 74-77. *)
Lemma update_results_events args f u fl w :
  update_results (W:=W) args f u fl w
  = (Ret tt, w,
     if truthy (update_modules args) || (0 <? len u)%Z
     then [Say "update results";
           Print (tab ++ "* " ++ str_of_Z (len f) ++ " modules were updated");
           Print (tab ++ "* " ++ str_of_Z (len fl) ++ " modules could not be updated")]
     else []).
Proof.
  unfold update_results.
  destruct (truthy (update_modules args) || (0 <? len u)%Z); reflexivity.
Qed.

(** Lines 57-77 when nothing is outdated. *)
Lemma report_nothing_outdated args modules f fl w1 :
  report kiwi args modules (f, [], fl) w1
  = (Ret tt, w1,
     snd (fetch_results (W:=W) args modules f [] fl w1)
     ++ (if truthy (update_modules args)
         then [Say "update results";
               Print (tab ++ "* " ++ str_of_Z (len f) ++ " modules were updated");
               Print (tab ++ "* " ++ str_of_Z (len fl)
                      ++ " modules could not be updated")]
         else []))%list.
Proof.
  unfold report.
  destruct (Fetching.fetch_results_output args modules f [] fl w1) as [t1 [E1 _]].
  rewrite E1. cbn [snd].
  eapply Fetching.bind_ret; [exact E1|].
  replace (if truthy (update_modules args) then _ else _)
    with ([] ++ (if truthy (update_modules args) || (0 <? len (@nil string))%Z
                 then [Say "update results";
                       Print (tab ++ "* " ++ str_of_Z (len f) ++ " modules were updated");
                       Print (tab ++ "* " ++ str_of_Z (len fl)
                              ++ " modules could not be updated")]
                 else []))%list
    by (cbn [app len length Z.of_nat Z.ltb Z.compare]; now rewrite orb_false_r).
  eapply Fetching.bind_ret; [reflexivity|].
  apply update_results_events.
Qed.

(** Lines 57-77 when the user accepts the update. *)
Lemma report_accepted_events args modules f u fl w1 f' u' fl' w2 :
  u <> [] ->
  ask kiwi "Update the outdated modules?" ["y"; "n"] = "y" ->
  fetch_modules kiwi u true w1 = ((f', u', fl'), w2) ->
  report kiwi args modules (f, u, fl) w1
  = (Ret tt, w2,
     snd (fetch_results (W:=W) args modules f u fl w1)
     ++ [update_prompt; CallFetch u true]
     ++ [Say "update results";
         Print (tab ++ "* " ++ str_of_Z (len f') ++ " modules were updated");
         Print (tab ++ "* " ++ str_of_Z (len fl') ++ " modules could not be updated")])%list.
Proof.
  intros Hu Ha Ef. unfold report.
  destruct (Fetching.fetch_results_output args modules f u fl w1) as [t1 [E1 _]].
  rewrite E1. cbn [snd].
  eapply Fetching.bind_ret; [exact E1|].
  eapply Fetching.bind_ret.
  - unfold update_outdated. rewrite (Fetching.len_pos u Hu).
    cbv beta iota delta [bind call_ask call_fetch ret]. rewrite Ha.
    change (String.eqb "y" "y") with true. cbv beta iota.
    rewrite Ef. reflexivity.
  - cbn [fst snd]. rewrite update_results_events.
    rewrite (Fetching.len_pos u Hu), orb_true_r. reflexivity.
Qed.

End Facts.

(** X3: [get all] when the registry cannot be reached: the run says so and
    exits with status 1; the engine is not called and its state is as it
    was. *)
Theorem get_all_unreachable_exits
        {W} (kiwi : Kiwi W) (argv1 : string) (args : Args) (w : W) :
  list_modules args = false ->
  get_modules args = Some ["all"] ->
  get_remote_module_list kiwi w = None ->
  run kiwi argv1 args w
  = (Exit 1%Z, w, [CallRemote; Say "could not reach remote to fetch module list"]).
Proof.
  intros Hl Hg Hr. apply Fetching.run_fetch_refused; [assumption | |].
  - rewrite Hg. reflexivity.
  - unfold collect, requested. rewrite Hg. cbn [truthy the_list].
    change (py_in "all" ["all"]) with true. cbv beta iota.
    change (1 <? len ["all"])%Z with false. cbv beta iota.
    unfold bind, call_remote. rewrite Hr. reflexivity.
Qed.

Lemma get_all_unreachable_exits_witness :
  run (stub None all_fetched "y") "-g" (args_get ["all"]) ["X"]
  = (Exit 1%Z, ["X"], [CallRemote; Say "could not reach remote to fetch module list"]).
Proof.
  apply (get_all_unreachable_exits (stub None all_fetched "y") "-g"
           (args_get ["all"]) ["X"]); reflexivity.
Defined.

(** X4: [get all] when the registry answers: the remote list is asked for
    once, the engine is called next with exactly that list (and the update
    flag set when an update list was given too), and the installed list is
    not asked for. *)
Theorem get_all_fetches_remote_list
        {W} (kiwi : Kiwi W) (argv1 : string) (args : Args) (w : W)
        (remote : list string) :
  list_modules args = false ->
  get_modules args = Some ["all"] ->
  get_remote_module_list kiwi w = Some remote ->
  exists rest,
    trace (run kiwi argv1 args w)
    = CallRemote :: CallFetch remote (is_some (update_modules args)) :: rest
    /\ ~ In CallRemote rest
    /\ ~ In CallInstalled (trace (run kiwi argv1 args w)).
Proof.
  intros Hl Hg Hr.
  assert (Hc : collect kiwi argv1 args w = (Ret remote, w, [CallRemote])).
  { unfold collect, requested. rewrite Hg. cbn [truthy the_list].
    change (py_in "all" ["all"]) with true. cbv beta iota.
    change (1 <? len ["all"])%Z with false. cbv beta iota.
    unfold bind, call_remote. rewrite Hr. reflexivity. }
  assert (Ht : truthy (get_modules args) || truthy (update_modules args) = true)
    by (rewrite Hg; reflexivity).
  destruct (fetch_modules kiwi remote (is_some (update_modules args)) w)
    as [r w1] eqn:Ef.
  destruct (report kiwi args remote r w1) as [[o w2] t2] eqn:Er.
  rewrite (Fetching.run_fetch_collected kiwi argv1 args w _ _ r w1 o w2 t2
             Hl Ht Hc Ef Er).
  destruct (Fetching.report_no_listing kiwi args remote r w1) as [Hn Hi].
  rewrite Er in Hn, Hi. cbn [snd] in Hn, Hi.
  exists t2. unfold trace. cbn [snd app].
  split; [reflexivity|]. split; [assumption|].
  intros [H|[H|H]]; [discriminate H | discriminate H | contradiction].
Qed.

Lemma get_all_fetches_remote_list_witness :
  exists rest,
    trace (run (stub (Some ["Y"; "Z"]) all_fetched "n") "-g" (args_get ["all"]) ["X"])
    = CallRemote :: CallFetch ["Y"; "Z"] false :: rest
    /\ ~ In CallRemote rest
    /\ ~ In CallInstalled
           (trace (run (stub (Some ["Y"; "Z"]) all_fetched "n") "-g"
                       (args_get ["all"]) ["X"])).
Proof.
  apply (get_all_fetches_remote_list (stub (Some ["Y"; "Z"]) all_fetched "n") "-g"
           (args_get ["all"]) ["X"] ["Y"; "Z"]); reflexivity.
Defined.

(** X5: a request that does not name ['all'] goes to the engine as it was
    typed: the first thing the run does is to call [fetch_modules] with the
    requested list; the update flag is set exactly when an update list was
    given ([is not None], so also for an empty one given beside a [get]
    list); neither list of modules is asked for anywhere in the run. *)
Theorem plain_request_goes_to_engine
        {W} (kiwi : Kiwi W) (argv1 : string) (args : Args) (w : W) :
  list_modules args = false ->
  truthy (get_modules args) || truthy (update_modules args) = true ->
  py_in "all" (requested args) = false ->
  exists rest,
    trace (run kiwi argv1 args w)
    = CallFetch (requested args) (is_some (update_modules args)) :: rest
    /\ ~ In CallRemote (trace (run kiwi argv1 args w))
    /\ ~ In CallInstalled (trace (run kiwi argv1 args w)).
Proof.
  intros Hl Ht Hall.
  assert (Hc : collect kiwi argv1 args w = (Ret (requested args), w, [])).
  { unfold collect. now rewrite Hall. }
  destruct (fetch_modules kiwi (requested args) (is_some (update_modules args)) w)
    as [r w1] eqn:Ef.
  destruct (report kiwi args (requested args) r w1) as [[o w2] t2] eqn:Er.
  rewrite (Fetching.run_fetch_collected kiwi argv1 args w _ _ r w1 o w2 t2
             Hl Ht Hc Ef Er).
  destruct (Fetching.report_no_listing kiwi args (requested args) r w1) as [Hn Hi].
  rewrite Er in Hn, Hi. cbn [snd] in Hn, Hi.
  exists t2. unfold trace. cbn [snd app].
  split; [reflexivity|].
  split; intros [H|H]; first [discriminate H | contradiction].
Qed.

Lemma plain_request_goes_to_engine_witness :
  exists rest,
    trace (run (stub (Some ["Y"]) all_fetched "n") "-g"
               {| list_modules := false; get_modules := Some ["a"; "b"];
                  update_modules := Some []; self_update := false |} ["X"])
    = CallFetch ["a"; "b"] true :: rest
    /\ ~ In CallRemote
           (trace (run (stub (Some ["Y"]) all_fetched "n") "-g"
                       {| list_modules := false; get_modules := Some ["a"; "b"];
                          update_modules := Some []; self_update := false |} ["X"]))
    /\ ~ In CallInstalled
           (trace (run (stub (Some ["Y"]) all_fetched "n") "-g"
                       {| list_modules := false; get_modules := Some ["a"; "b"];
                          update_modules := Some []; self_update := false |} ["X"])).
Proof.
  apply (plain_request_goes_to_engine (stub (Some ["Y"]) all_fetched "n") "-g"
           {| list_modules := false; get_modules := Some ["a"; "b"];
              update_modules := Some []; self_update := false |} ["X"]);
    reflexivity.
Defined.

(** X6: a request of more than one name that holds ['all'], also one that
    only repeats ['all'], is refused with exactly this output: the message,
    the heading, the command with [all] alone, and the command with the
    other names in their order; then the run exits with status 1. *)
Theorem refused_request_suggestions
        {W} (kiwi : Kiwi W) (argv1 : string) (args : Args) (w : W) :
  list_modules args = false ->
  In "all" (requested args) ->
  (1 < len (requested args))%Z ->
  run kiwi argv1 args w
  = (Exit 1%Z, w,
     [Say "can't have 'all' argument with other modules listed";
      Print "Possible solutions:";
      Print (tab ++ "* kiwi " ++ argv1 ++ " all");
      Print (tab ++ "* kiwi " ++ argv1 ++ " "
             ++ String.concat " "
                  (filter (fun module => negb (String.eqb module "all"))
                          (requested args)))]).
Proof.
  intros Hl Hall Hlen.
  apply Fetching.run_fetch_refused;
    [assumption | exact (Fetching.requested_truthy args _ Hall) |].
  unfold collect. apply py_in_In in Hall. rewrite Hall.
  apply Z.ltb_lt in Hlen. rewrite Hlen. reflexivity.
Qed.

Lemma refused_request_suggestions_witness :
  run (stub (Some ["Y"]) all_fetched "n") "-u" (args_update ["all"; "b"; "all"; "c"])
      ["X"]
  = (Exit 1%Z, ["X"],
     [Say "can't have 'all' argument with other modules listed";
      Print "Possible solutions:";
      Print (tab ++ "* kiwi -u all");
      Print (tab ++ "* kiwi -u b c")]).
Proof.
  apply (refused_request_suggestions (stub (Some ["Y"]) all_fetched "n") "-u"
           (args_update ["all"; "b"; "all"; "c"]) ["X"]).
  - reflexivity.
  - simpl. tauto.
  - reflexivity.
Defined.

(** X7: the run leaves through [sys.exit] in two ways only.  With status 1
    it has called the engine not at all, asked nothing, and the state of the
    engine is as it was.  With status 0 the last thing it did was to ask
    whether to update the outdated modules, the answer was not [y], and the
    engine has been called once. *)
Theorem exits_are_refusal_or_declined
        {W} (kiwi : Kiwi W) (argv1 : string) (args : Args) (w : W) (c : Z) :
  outcome (run kiwi argv1 args w) = Exit c ->
  (c = 1%Z
   /\ final (run kiwi argv1 args w) = w
   /\ fetch_calls (trace (run kiwi argv1 args w)) = []
   /\ prompts (trace (run kiwi argv1 args w)) = [])
  \/ (c = 0%Z
      /\ (exists pre, trace (run kiwi argv1 args w) = pre ++ [update_prompt])%list
      /\ length (fetch_calls (trace (run kiwi argv1 args w))) = 1
      /\ prompts (trace (run kiwi argv1 args w))
         = [("Update the outdated modules?", ["y"; "n"])]
      /\ ask kiwi "Update the outdated modules?" ["y"; "n"] <> "y").
Proof.
  intros Hc.
  destruct (run_shape kiwi argv1 args w) as [HA | [HB | HC]].
  - destruct HA as (w' & t & E & _).
    rewrite E in Hc. discriminate Hc.
  - destruct HB as (t & E & F & P).
    rewrite E in Hc |- *. unfold outcome, final, trace in *. cbn [fst snd] in *.
    left. injection Hc as <-. repeat split; assumption.
  - destruct HC as (modules & t0 & f & u & fl & w1 & F0 & P0 & Ef & HD).
    destruct HD as [H1 | [H2 | H3]].
    + destruct H1 as (Hu & t & E & O). rewrite E in Hc. discriminate Hc.
    + destruct H2 as (Hu & Ha & t & E & O).
      rewrite E in Hc |- *. unfold outcome, final, trace in *. cbn [fst snd] in *.
      right. injection Hc as <-. split; [reflexivity|]. split; [|split; [|split]].
      * eexists. rewrite !app_assoc. reflexivity.
      * rewrite !Fetching.fetch_calls_app, F0, (Fetching.output_fetch_calls t O).
        reflexivity.
      * rewrite !Fetching.prompts_app, P0, (Fetching.output_prompts t O).
        reflexivity.
      * assumption.
    + destruct H3 as (Hu & Ha & t & t' & E & O & O').
      rewrite E in Hc. discriminate Hc.
Qed.

Lemma exits_are_refusal_or_declined_witness :
  (0%Z = 1%Z
   /\ final (run (stub (Some ["Y"]) all_outdated "n") "-g" (args_get ["a"]) ["X"])
      = ["X"]
   /\ fetch_calls (trace (run (stub (Some ["Y"]) all_outdated "n") "-g"
                              (args_get ["a"]) ["X"])) = []
   /\ prompts (trace (run (stub (Some ["Y"]) all_outdated "n") "-g"
                          (args_get ["a"]) ["X"])) = [])
  \/ (0%Z = 0%Z
      /\ (exists pre,
            trace (run (stub (Some ["Y"]) all_outdated "n") "-g" (args_get ["a"])
                       ["X"]) = pre ++ [update_prompt])%list
      /\ length (fetch_calls (trace (run (stub (Some ["Y"]) all_outdated "n") "-g"
                                         (args_get ["a"]) ["X"]))) = 1
      /\ prompts (trace (run (stub (Some ["Y"]) all_outdated "n") "-g"
                             (args_get ["a"]) ["X"]))
         = [("Update the outdated modules?", ["y"; "n"])]
      /\ "n" <> "y").
Proof.
  apply (exits_are_refusal_or_declined (stub (Some ["Y"]) all_outdated "n") "-g"
           (args_get ["a"]) ["X"] 0%Z).
  reflexivity.
Defined.

(** X8: whatever the command line, the engine and the user, the run calls
    [fetch_modules] at most twice and asks at most once.  Without a call
    nothing is asked.  The first call carries the update flag of the command
    line.  A second call comes only after the question was answered [y]; it
    is an update, and its modules are the non-empty list that the first call
    reported as outdated. *)
Theorem engine_called_at_most_twice
        {W} (kiwi : Kiwi W) (argv1 : string) (args : Args) (w : W) :
  match fetch_calls (trace (run kiwi argv1 args w)) with
  | [] => prompts (trace (run kiwi argv1 args w)) = []
  | [(modules, update)] =>
      update = is_some (update_modules args)
      /\ (prompts (trace (run kiwi argv1 args w)) = []
          \/ (prompts (trace (run kiwi argv1 args w))
               = [("Update the outdated modules?", ["y"; "n"])]
              /\ outcome (run kiwi argv1 args w) = Exit 0%Z))
  | [(modules, update); (outdated, update')] =>
      update = is_some (update_modules args)
      /\ update' = true
      /\ outdated <> []
      /\ outdated = snd (fst (fst (fetch_modules kiwi modules update w)))
      /\ prompts (trace (run kiwi argv1 args w))
         = [("Update the outdated modules?", ["y"; "n"])]
      /\ ask kiwi "Update the outdated modules?" ["y"; "n"] = "y"
  | _ => False
  end.
Proof.
  destruct (run_shape kiwi argv1 args w) as [HA | [HB | HC]].
  - destruct HA as (w' & t & E & F & P).
    rewrite E. unfold outcome, trace. cbn [fst snd]. rewrite F. assumption.
  - destruct HB as (t & E & F & P).
    rewrite E. unfold outcome, trace. cbn [fst snd]. rewrite F. assumption.
  - destruct HC as (modules & t0 & f & u & fl & w1 & F0 & P0 & Ef & HD).
    destruct HD as [H1 | [H2 | H3]].
    + destruct H1 as (Hu & t & E & O).
      rewrite E. unfold outcome, trace. cbn [fst snd].
      rewrite !Fetching.fetch_calls_app, F0, (Fetching.output_fetch_calls t O).
      cbn [app fetch_calls]. split; [reflexivity|]. left.
      rewrite !Fetching.prompts_app, P0. cbn [app prompts].
      rewrite ?Fetching.prompts_app, (Fetching.output_prompts t O). reflexivity.
    + destruct H2 as (Hu & Ha & t & E & O).
      rewrite E. unfold outcome, trace. cbn [fst snd].
      rewrite !Fetching.fetch_calls_app, F0, (Fetching.output_fetch_calls t O).
      cbn [app fetch_calls]. split; [reflexivity|]. right.
      rewrite !Fetching.prompts_app, P0. cbn [app prompts].
      rewrite ?Fetching.prompts_app, (Fetching.output_prompts t O).
      split; reflexivity.
    + destruct H3 as (Hu & Ha & t & t' & E & O & O').
      rewrite E. unfold outcome, trace. cbn [fst snd].
      rewrite !Fetching.fetch_calls_app, F0, (Fetching.output_fetch_calls t O).
      cbn [app fetch_calls]. rewrite (Fetching.output_fetch_calls t' O').
      rewrite !Fetching.prompts_app, P0. cbn [app prompts].
      rewrite ?Fetching.prompts_app, (Fetching.output_prompts t O).
      cbn [app prompts]. rewrite (Fetching.output_prompts t' O').
      rewrite Ef. cbn [fst snd]. repeat split; try reflexivity; assumption.
Qed.

(** X9: when the engine reports nothing as outdated the run asks nothing,
    calls the engine once and returns; the state of the engine is the one
    this call left.  The fetch results are said exactly for a [get] request
    and the update results exactly when a non-empty update list was given. *)
Theorem nothing_outdated_returns
        {W} (kiwi : Kiwi W) (argv1 : string) (args : Args) (w w1 : W)
        (modules fetched failed : list string) (t0 : list event) :
  list_modules args = false ->
  truthy (get_modules args) || truthy (update_modules args) = true ->
  collect kiwi argv1 args w = (Ret modules, w, t0) ->
  fetch_modules kiwi modules (is_some (update_modules args)) w
  = ((fetched, [], failed), w1) ->
  outcome (run kiwi argv1 args w) = Ret tt
  /\ final (run kiwi argv1 args w) = w1
  /\ fetch_calls (trace (run kiwi argv1 args w))
     = [(modules, is_some (update_modules args))]
  /\ prompts (trace (run kiwi argv1 args w)) = []
  /\ (In (Say "fetch results") (trace (run kiwi argv1 args w))
      <-> truthy (get_modules args) = true)
  /\ (In (Say "update results") (trace (run kiwi argv1 args w))
      <-> truthy (update_modules args) = true).
Proof.
  intros Hl Ht Hc Ef.
  rewrite (Fetching.run_fetch_collected kiwi argv1 args w modules t0 _ w1 _ _ _
             Hl Ht Hc Ef (report_nothing_outdated kiwi args modules fetched failed w1)).
  unfold outcome, final, trace. cbn [fst snd].
  assert (H0 : t0 = [] \/ t0 = [CallRemote] \/ t0 = [CallInstalled]).
  { destruct (collect_cases kiwi argv1 args w)
      as [[t [E _]]|[m' [t' [E H]]]]; rewrite Hc in E.
    - discriminate E.
    - injection E as _ <-. exact H. }
  destruct (collected_quiet t0 H0) as [F0 P0].
  split; [reflexivity|]. split; [reflexivity|].
  assert (Hres : forall s, In (Say s) t0 -> False).
  { intros s Hs. destruct H0 as [-> | [-> | ->]]; simpl in Hs;
      intuition discriminate. }
  destruct (truthy (get_modules args)) eqn:Hg.
  - rewrite (fetch_results_get args modules fetched [] failed w1 Hg). cbn [snd].
    rewrite !Fetching.fetch_calls_app, !Fetching.prompts_app, F0, P0.
    destruct (len modules =? len fetched + len [] + len failed)%Z;
      destruct (truthy (update_modules args));
      cbn [app fetch_calls prompts];
      (split; [reflexivity|]); (split; [reflexivity|]);
      split; split; intros H; try reflexivity; try discriminate H;
      try (apply in_or_app; right; simpl; tauto);
      apply in_app_or in H as [H|H];
      try (exfalso; exact (Hres _ H));
      simpl in H; intuition discriminate.
  - rewrite (fetch_results_other args modules fetched [] failed w1 Hg). cbn [snd].
    rewrite !Fetching.fetch_calls_app, !Fetching.prompts_app, F0, P0.
    destruct (truthy (update_modules args));
      cbn [app fetch_calls prompts];
      (split; [reflexivity|]); (split; [reflexivity|]);
      split; split; intros H; try reflexivity; try discriminate H;
      try (apply in_or_app; right; simpl; tauto);
      apply in_app_or in H as [H|H];
      try (exfalso; exact (Hres _ H));
      simpl in H; intuition discriminate.
Qed.

Lemma nothing_outdated_returns_witness :
  outcome (run (stub (Some ["Y"]) all_fetched "y") "-u" (args_update ["a"]) ["X"])
  = Ret tt
  /\ final (run (stub (Some ["Y"]) all_fetched "y") "-u" (args_update ["a"]) ["X"])
     = ["X"; "a"]
  /\ fetch_calls (trace (run (stub (Some ["Y"]) all_fetched "y") "-u"
                             (args_update ["a"]) ["X"]))
     = [(["a"], true)]
  /\ prompts (trace (run (stub (Some ["Y"]) all_fetched "y") "-u"
                         (args_update ["a"]) ["X"])) = []
  /\ (In (Say "fetch results")
         (trace (run (stub (Some ["Y"]) all_fetched "y") "-u" (args_update ["a"])
                     ["X"]))
      <-> false = true)
  /\ (In (Say "update results")
         (trace (run (stub (Some ["Y"]) all_fetched "y") "-u" (args_update ["a"])
                     ["X"]))
      <-> true = true).
Proof.
  apply (nothing_outdated_returns (stub (Some ["Y"]) all_fetched "y") "-u"
           (args_update ["a"]) ["X"] ["X"; "a"] ["a"] ["a"] [] []);
    reflexivity.
Defined.

(** Lines 57-77 when the user declines the update. *)
Lemma report_declined_events
      {W} (kiwi : Kiwi W) args modules f u fl (w1 : W) :
  u <> [] ->
  ask kiwi "Update the outdated modules?" ["y"; "n"] <> "y" ->
  report kiwi args modules (f, u, fl) w1
  = (Exit 0%Z, w1,
     (snd (fetch_results (W:=W) args modules f u fl w1) ++ [update_prompt])%list).
Proof.
  intros Hu Ha. unfold report.
  destruct (Fetching.fetch_results_output (W:=W) args modules f u fl w1)
    as [t1 [E1 _]].
  rewrite E1. cbn [snd].
  eapply Fetching.bind_ret; [exact E1|].
  apply Fetching.bind_exit.
  unfold update_outdated. rewrite (Fetching.len_pos u Hu).
  apply String.eqb_neq in Ha.
  unfold bind, call_ask, sys_exit. rewrite Ha. reflexivity.
Qed.

(** X10: when the user answers [y] the outdated modules are fetched again as
    an update, and the update results that end the run show the numbers of
    that second call, not those of the first; this holds for a [get] as for
    an update request.  The state of the engine is the one the second call
    left. *)
Theorem accepted_update_reports_second_call
        {W} (kiwi : Kiwi W) (argv1 : string) (args : Args) (w w1 w2 : W)
        (modules fetched outdated failed fetched' outdated' failed' : list string)
        (t0 : list event) :
  list_modules args = false ->
  truthy (get_modules args) || truthy (update_modules args) = true ->
  collect kiwi argv1 args w = (Ret modules, w, t0) ->
  fetch_modules kiwi modules (is_some (update_modules args)) w
  = ((fetched, outdated, failed), w1) ->
  outdated <> [] ->
  ask kiwi "Update the outdated modules?" ["y"; "n"] = "y" ->
  fetch_modules kiwi outdated true w1 = ((fetched', outdated', failed'), w2) ->
  outcome (run kiwi argv1 args w) = Ret tt
  /\ final (run kiwi argv1 args w) = w2
  /\ exists pre,
       trace (run kiwi argv1 args w)
       = (pre ++ [update_prompt; CallFetch outdated true;
                  Say "update results";
                  Print (tab ++ "* " ++ str_of_Z (len fetched')
                         ++ " modules were updated");
                  Print (tab ++ "* " ++ str_of_Z (len failed')
                         ++ " modules could not be updated")])%list.
Proof.
  intros Hl Ht Hc Ef Hu Ha Ef'.
  rewrite (Fetching.run_fetch_collected kiwi argv1 args w modules t0 _ w1 _ _ _
             Hl Ht Hc Ef
             (report_accepted_events kiwi args modules fetched outdated failed w1
                fetched' outdated' failed' w2 Hu Ha Ef')).
  unfold outcome, final, trace. cbn [fst snd].
  split; [reflexivity|]. split; [reflexivity|].
  exists (t0 ++ [CallFetch modules (is_some (update_modules args))]
          ++ snd (fetch_results (W:=W) args modules fetched outdated failed w1))%list.
  rewrite <- !app_assoc. reflexivity.
Qed.

Lemma accepted_update_reports_second_call_witness :
  outcome (run (stub (Some ["Y"]) all_outdated "y") "-g" (args_get ["a"; "b"]) ["X"])
  = Ret tt
  /\ final (run (stub (Some ["Y"]) all_outdated "y") "-g" (args_get ["a"; "b"]) ["X"])
     = ["X"; "a"; "b"]
  /\ exists pre,
       trace (run (stub (Some ["Y"]) all_outdated "y") "-g" (args_get ["a"; "b"])
                  ["X"])
       = (pre ++ [update_prompt; CallFetch ["a"; "b"] true;
                  Say "update results";
                  Print (tab ++ "* 2 modules were updated");
                  Print (tab ++ "* 0 modules could not be updated")])%list.
Proof.
  apply (accepted_update_reports_second_call
           (stub (Some ["Y"]) all_outdated "y") "-g" (args_get ["a"; "b"])
           ["X"] ["X"] ["X"; "a"; "b"] ["a"; "b"] [] ["a"; "b"] [] ["a"; "b"] [] []
           []).
  - reflexivity.
  - reflexivity.
  - reflexivity.
  - reflexivity.
  - discriminate.
  - reflexivity.
  - reflexivity.
Defined.

(** X11: after the engine call of a [get] request the run says "fetch
    results" and prints the number of fetched modules, of failed modules and
    of modules with an available update, in this order.  The line of the
    modules that are present and up to date follows exactly when these three
    numbers do not add up to the number of requested modules; it shows the
    difference, which is negative when the engine reports more modules than
    were requested, and is never printed as 0. *)
Theorem get_prints_fetch_results
        {W} (kiwi : Kiwi W) (argv1 : string) (args : Args) (w w1 : W)
        (modules fetched outdated failed : list string) (t0 : list event) :
  list_modules args = false ->
  truthy (get_modules args) = true ->
  collect kiwi argv1 args w = (Ret modules, w, t0) ->
  fetch_modules kiwi modules (is_some (update_modules args)) w
  = ((fetched, outdated, failed), w1) ->
  exists rest,
    trace (run kiwi argv1 args w)
    = (t0
       ++ [CallFetch modules (is_some (update_modules args));
           Say "fetch results";
           Print (tab ++ "* " ++ str_of_Z (len fetched) ++ " new modules fetched");
           Print (tab ++ "* " ++ str_of_Z (len failed)
                  ++ " modules could not be fetched");
           Print (tab ++ "* " ++ str_of_Z (len outdated)
                  ++ " modules have an available update")]
       ++ (if (len modules - len fetched - len outdated - len failed =? 0)%Z
           then []
           else [Print (tab ++ "* "
                        ++ str_of_Z (len modules - len fetched - len outdated
                                     - len failed)
                        ++ " modules are present and up to date")])
       ++ rest)%list
    /\ ~ In (Say "fetch results") rest.
Proof.
  intros Hl Hg Hc Ef.
  assert (Ht : truthy (get_modules args) || truthy (update_modules args) = true)
    by (rewrite Hg; reflexivity).
  destruct (report kiwi args modules (fetched, outdated, failed) w1)
    as [[o w2] t2] eqn:Er.
  rewrite (Fetching.run_fetch_collected kiwi argv1 args w modules t0 _ w1 o w2 t2
             Hl Ht Hc Ef Er).
  unfold trace. cbn [snd].
  assert (Hcond : (len modules - len fetched - len outdated - len failed =? 0)%Z
                  = (len modules =? len fetched + len outdated + len failed)%Z).
  { destruct (Z.eqb_spec (len modules) (len fetched + len outdated + len failed));
      [apply Z.eqb_eq | apply Z.eqb_neq]; lia. }
  rewrite Hcond.
  destruct (report_cases kiwi args modules fetched outdated failed w1)
    as [H1 | [H2 | H3]].
  - destruct H1 as (-> & _). rewrite report_nothing_outdated in Er.
    injection Er as _ _ <-.
    rewrite (fetch_results_get args modules fetched [] failed w1 Hg). cbn [snd].
    eexists. split; [rewrite <- !app_assoc; reflexivity|].
    destruct (truthy (update_modules args)); simpl; intuition discriminate.
  - destruct H2 as (Hu & Ha & _).
    rewrite (report_declined_events kiwi args modules fetched outdated failed w1
               Hu Ha) in Er.
    injection Er as _ _ <-.
    rewrite (fetch_results_get args modules fetched outdated failed w1 Hg). cbn [snd].
    eexists. split; [rewrite <- !app_assoc; reflexivity|].
    simpl. intuition discriminate.
  - destruct H3 as (Hu & Ha & _).
    destruct (fetch_modules kiwi outdated true w1) as [[[f' u'] fl'] w2'] eqn:Ef'.
    rewrite (report_accepted_events kiwi args modules fetched outdated failed w1
               f' u' fl' w2' Hu Ha Ef') in Er.
    injection Er as _ _ <-.
    rewrite (fetch_results_get args modules fetched outdated failed w1 Hg). cbn [snd].
    eexists. split; [rewrite <- !app_assoc; reflexivity|].
    simpl. intuition discriminate.
Qed.

Lemma get_prints_fetch_results_witness :
  exists rest,
    trace (run (stub (Some ["Y"]) (fun _ _ => (["a"; "dep"], [], [])) "n") "-g"
               (args_get ["a"]) ["X"])
    = ([]
       ++ [CallFetch ["a"] false;
           Say "fetch results";
           Print (tab ++ "* 2 new modules fetched");
           Print (tab ++ "* 0 modules could not be fetched");
           Print (tab ++ "* 0 modules have an available update")]
       ++ [Print (tab ++ "* -1 modules are present and up to date")]
       ++ rest)%list
    /\ ~ In (Say "fetch results") rest.
Proof.
  apply (get_prints_fetch_results
           (stub (Some ["Y"]) (fun _ _ => (["a"; "dep"], [], [])) "n") "-g"
           (args_get ["a"]) ["X"] ["X"; "a"; "dep"] ["a"] ["a"; "dep"] [] [] []);
    reflexivity.
Defined.

(** X12: without the list flag and without a non-empty [get] or update list
    (an empty list counts as none) the run never calls [fetch_modules].  With
    the self-update flag it calls [kiwi.runtime.update] once, with the
    message "I have an update", and says "I'm up to date" exactly when that
    call returns true; without the flag it does nothing at all. *)
Theorem without_request_self_update_or_nothing
        {W} (kiwi : Kiwi W) (argv1 : string) (args : Args) (w : W) :
  list_modules args = false ->
  truthy (get_modules args) = false ->
  truthy (update_modules args) = false ->
  run kiwi argv1 args w
  = if self_update args
    then (Ret tt, snd (runtime_update kiwi "I have an update" w),
          CallSelfUpdate "I have an update"
          :: (if fst (runtime_update kiwi "I have an update" w)
              then [Say "I'm up to date"] else []))
    else (Ret tt, w, []).
Proof.
  intros Hl Hg Hu. apply run_other; [assumption|]. now rewrite Hg, Hu.
Qed.

Lemma without_request_self_update_or_nothing_witness :
  run (stub_updating None) "-s" args_self_update ["X"]
  = (Ret tt, ["kiwi"; "X"],
     [CallSelfUpdate "I have an update"; Say "I'm up to date"]).
Proof.
  apply (without_request_self_update_or_nothing (stub_updating None) "-s"
           args_self_update ["X"]); reflexivity.
Defined.

End RunFacts.

(** ** Facts about the example module *)

Module HelloWorldFacts.
Import HelloWorld.

Lemma given_the_name o :
  given o = true -> exists c n, o = Some (String c n).
Proof.
  destruct o as [[|c n]|]; try discriminate. intros _. now exists c, n.
Qed.

(** X13: the module of [modules/helloworld/client.py], run without the
    server flag, prints the same lines as the older module of
    [etc/kiwi/modules/helloworld.py] on every command line but one: they
    differ exactly when the name given is the name of the module itself,
    which the newer one answers with "Hello to you too!".  An empty name is
    no name for both. *)
Theorem helloworld_versions_agree (kiwi : Kiwi) (args : Args) :
  server args = false ->
  (kiwi_main kiwi args = kiwi_main_old args
   <-> ~ (given (name args) = true /\ name args = Some (module_name kiwi))).
Proof.
  intros Hs. unfold kiwi_main, kiwi_main_old. rewrite Hs.
  destruct (given (name args)) eqn:Hg; cbn [negb].
  - destruct (given_the_name _ Hg) as [c [n Hn]]. rewrite Hn. cbn [the_name].
    destruct (String.eqb_spec (String c n) (module_name kiwi)) as [He|Hne].
    + split.
      * intros H. exfalso. cbn in H. injection H as H. discriminate H.
      * intros H. exfalso. apply H. split; [reflexivity | now rewrite He].
    + split; [|reflexivity].
      intros _ [_ H]. injection H as H. contradiction.
  - split; [|reflexivity]. intros _ [H _]. discriminate H.
Qed.

Lemma helloworld_versions_agree_witness :
  kiwi_main {| module_name := "helloworld"; serverside := "pong" |}
            {| name := Some "Vlad"; server := false |}
  = kiwi_main_old {| name := Some "Vlad"; server := false |}
  <-> ~ (given (Some "Vlad") = true /\ Some "Vlad" = Some "helloworld").
Proof.
  apply (helloworld_versions_agree
           {| module_name := "helloworld"; serverside := "pong" |}
           {| name := Some "Vlad"; server := false |}).
  reflexivity.
Defined.

End HelloWorldFacts.

(** ** Facts about the module [lofi] *)

Module LofiFacts.
Import Lofi.

(** X14: [main] does exactly one thing.  It starts a browser exactly when
    [explorer.exe] or [xdg-open] is found: [explorer.exe] with the lofi
    address followed by an ampersand and a quote when [explorer.exe] is
    found, and otherwise [xdg-open] with the lofi address; so the program it
    starts is one that was found.  It prints that no browser is available
    exactly when neither is found. *)
Theorem lofi_starts_one_found_browser (find_executable : string -> bool) :
  exists a,
    main find_executable = [a]
    /\ ((exists argv, a = Call argv)
        <-> find_executable "explorer.exe" = true
            \/ find_executable "xdg-open" = true)
    /\ (a = Print "No available browsers found."
        <-> find_executable "explorer.exe" = false
            /\ find_executable "xdg-open" = false)
    /\ (find_executable "explorer.exe" = true ->
        a = Call ["explorer.exe"; lofi_url ++ "&" ++ quote])
    /\ (find_executable "explorer.exe" = false ->
        find_executable "xdg-open" = true ->
        a = Call ["xdg-open"; lofi_url])
    /\ (forall argv, a = Call argv ->
          exists prog suffix,
            argv = [prog; lofi_url ++ suffix]
            /\ find_executable prog = true
            /\ (prog = "explorer.exe" \/ prog = "xdg-open")).
Proof.
  unfold main.
  destruct (find_executable "explorer.exe") eqn:He;
    [|destruct (find_executable "xdg-open") eqn:Hx].
  - eexists. split; [reflexivity|]. split; [|split; [|split; [|split]]].
    + split; [auto | intros _; eexists; reflexivity].
    + split; [intros H; discriminate H | intros [H _]; discriminate H].
    + reflexivity.
    + discriminate.
    + intros argv H. injection H as <-.
      exists "explorer.exe", ("&" ++ quote). repeat split; auto.
  - eexists. split; [reflexivity|]. split; [|split; [|split; [|split]]].
    + split; [auto | intros _; eexists; reflexivity].
    + split; [intros H; discriminate H | intros [_ H]; discriminate H].
    + discriminate.
    + reflexivity.
    + intros argv H. injection H as <-.
      exists "xdg-open", "". split; [|repeat split; auto].
      unfold lofi_url. reflexivity.
  - eexists. split; [reflexivity|]. split; [|split; [|split; [|split]]].
    + split; [intros [argv H]; discriminate H | intros [H|H]; discriminate H].
    + split; [intros _; split; reflexivity | reflexivity].
    + discriminate.
    + discriminate.
    + intros argv H. discriminate H.
Qed.

End LofiFacts.

(** ** Facts about the synchronization engine *)

Module Sync.
Import Engine.










(** The scenarios of spec 8 and a mixed request. *)
Example scenario_dependency_first :
  fst (fetch_modules ["B"] false world_ab) = (["A"; "B"], [], [])
  /\ listInstalled (snd (fetch_modules ["B"] false world_ab)) = ["B"; "A"].
Proof. split; reflexivity. Qed.

Example scenario_cycle :
  fetch_modules ["A"] false world_cycle = (([], [], ["A"]), world_cycle).
Proof. reflexivity. Qed.

Example get_mixed_request :
  fst (sync false ["A"; "B"; "C"; "D"; "L"] world_abc)
  = {| fetched := ["A"; "B"]; updatable := []; failed := ["D"];
       unchanged := ["C"; "L"] |}.
Proof. reflexivity. Qed.




(** *** The updatable component *)




End Sync.

(** ** What updating does to the engine *)

Module Effects.
Import Client.

(** C7: [update all] asks for the installed modules and hands exactly that
    list to the engine as an update; the remote list is not asked for.  What
    the engine answers decides the rest of the run.  With nothing reported
    as outdated the run returns in the state the engine left and reports the
    sizes of the fetched and failed lists as updated and not updated.  With
    outdated modules it asks: on [y] these are fetched again as an update
    and the state and the numbers reported are those of that second call;
    otherwise the run exits with status 0 in the state of the first call. *)
Theorem update_all_refetches_installed
        {W} (kiwi : Kiwi W) (argv1 : string) (args : Args) (w w1 : W)
        (fetched outdated failed : list string) :
  list_modules args = false ->
  truthy (get_modules args) = false ->
  update_modules args = Some ["all"] ->
  fetch_modules kiwi (get_installed_module_list kiwi w) true w
  = ((fetched, outdated, failed), w1) ->
  ~ In CallRemote (trace (run kiwi argv1 args w))
  /\ run kiwi argv1 args w
     = match outdated with
       | [] =>
           (Ret tt, w1,
            [CallInstalled;
             CallFetch (get_installed_module_list kiwi w) true;
             Say "update results";
             Print (tab ++ "* " ++ str_of_Z (len fetched) ++ " modules were updated");
             Print (tab ++ "* " ++ str_of_Z (len failed)
                    ++ " modules could not be updated")])
       | _ :: _ =>
           if String.eqb (ask kiwi "Update the outdated modules?" ["y"; "n"]) "y"
           then
             (Ret tt, snd (fetch_modules kiwi outdated true w1),
              [CallInstalled;
               CallFetch (get_installed_module_list kiwi w) true;
               update_prompt;
               CallFetch outdated true;
               Say "update results";
               Print (tab ++ "* "
                      ++ str_of_Z (len (fst (fst (fst (fetch_modules kiwi outdated
                                                                     true w1)))))
                      ++ " modules were updated");
               Print (tab ++ "* "
                      ++ str_of_Z (len (snd (fst (fetch_modules kiwi outdated
                                                                true w1))))
                      ++ " modules could not be updated")])
           else
             (Exit 0%Z, w1,
              [CallInstalled;
               CallFetch (get_installed_module_list kiwi w) true;
               update_prompt])
       end.
Proof.
  intros Hl Hg Hu Ef.
  assert (Hc : collect kiwi argv1 args w
               = (Ret (get_installed_module_list kiwi w), w, [CallInstalled])).
  { unfold collect, requested. rewrite Hg, Hu. reflexivity. }
  assert (Ht : truthy (get_modules args) || truthy (update_modules args) = true)
    by (rewrite Hg, Hu; reflexivity).
  assert (Hflag : is_some (update_modules args) = true) by now rewrite Hu.
  rewrite <- Hflag in Ef.
  match goal with
  | |- _ /\ ?r = ?rhs => assert (Hrun : r = rhs); [|split; [rewrite Hrun | exact Hrun]]
  end.
  - destruct outdated as [|m u].
    + rewrite (Fetching.run_fetch_collected kiwi argv1 args w _ _ _ w1 _ _ _
                 Hl Ht Hc Ef
                 (RunFacts.report_nothing_outdated kiwi args _ fetched failed w1)).
      rewrite (RunFacts.fetch_results_other args _ fetched [] failed w1 Hg).
      rewrite Hflag, Hu. reflexivity.
    + destruct (String.eqb (ask kiwi "Update the outdated modules?" ["y"; "n"]) "y")
        eqn:Ha.
      * apply String.eqb_eq in Ha.
        destruct (fetch_modules kiwi (m :: u) true w1) as [[[f' u'] fl'] w2] eqn:Ef'.
        rewrite (Fetching.run_fetch_collected kiwi argv1 args w _ _ _ w1 _ _ _
                   Hl Ht Hc Ef
                   (RunFacts.report_accepted_events kiwi args _ fetched (m :: u)
                      failed w1 f' u' fl' w2 ltac:(discriminate) Ha Ef')).
        rewrite (RunFacts.fetch_results_other args _ fetched (m :: u) failed w1 Hg).
        rewrite Hflag. reflexivity.
      * apply String.eqb_neq in Ha.
        rewrite (Fetching.run_fetch_collected kiwi argv1 args w _ _ _ w1 _ _ _
                   Hl Ht Hc Ef
                   (RunFacts.report_declined_events kiwi args _ fetched (m :: u)
                      failed w1 ltac:(discriminate) Ha)).
        rewrite (RunFacts.fetch_results_other args _ fetched (m :: u) failed w1 Hg).
        rewrite Hflag. reflexivity.
  - unfold trace. destruct outdated as [|m u];
      [|destruct (String.eqb (ask kiwi "Update the outdated modules?" ["y"; "n"]) "y")];
      cbn [snd]; simpl; intuition discriminate.
Qed.

Lemma update_all_refetches_installed_witness :
  ~ In CallRemote
      (trace (run (stub (Some ["Y"; "Z"]) all_fetched "n") "-u"
                  (args_update ["all"]) ["X"; "Y"]))
  /\ run (stub (Some ["Y"; "Z"]) all_fetched "n") "-u" (args_update ["all"])
         ["X"; "Y"]
     = (Ret tt, ["X"; "Y"; "X"; "Y"],
        [CallInstalled; CallFetch ["X"; "Y"] true; Say "update results";
         Print (tab ++ "* 2 modules were updated");
         Print (tab ++ "* 0 modules could not be updated")]).
Proof.
  apply (update_all_refetches_installed
           (stub (Some ["Y"; "Z"]) all_fetched "n") "-u" (args_update ["all"])
           ["X"; "Y"] ["X"; "Y"; "X"; "Y"] ["X"; "Y"] [] []); reflexivity.
Defined.

(** C8: when the engine reports modules as outdated, the run asks the
    question once, after the call of the request and before anything else of
    the engine.  Exactly when the answer is [y] the engine is called once
    more, on the outdated modules and as an update: the run then ends in the
    state that this call left and reports its numbers.  With any other
    answer the engine is not called again, the state is the one the first
    call left, and the run exits with status 0. *)
Theorem update_pass_iff_confirmed
        {W} (kiwi : Kiwi W) (argv1 : string) (args : Args) (w w1 : W)
        (modules fetched outdated failed : list string) (t0 : list event) :
  list_modules args = false ->
  truthy (get_modules args) || truthy (update_modules args) = true ->
  collect kiwi argv1 args w = (Ret modules, w, t0) ->
  fetch_modules kiwi modules (is_some (update_modules args)) w
  = ((fetched, outdated, failed), w1) ->
  outdated <> [] ->
  exists pre post,
    trace (run kiwi argv1 args w) = (pre ++ update_prompt :: post)%list
    /\ fetch_calls pre = [(modules, is_some (update_modules args))]
    /\ prompts pre = []
    /\ prompts post = []
    /\ fetch_calls post
       = (if String.eqb (ask kiwi "Update the outdated modules?" ["y"; "n"]) "y"
          then [(outdated, true)] else [])
    /\ (outcome (run kiwi argv1 args w), final (run kiwi argv1 args w), post)
       = (if String.eqb (ask kiwi "Update the outdated modules?" ["y"; "n"]) "y"
          then
            (Ret tt, snd (fetch_modules kiwi outdated true w1),
             [CallFetch outdated true;
              Say "update results";
              Print (tab ++ "* "
                     ++ str_of_Z (len (fst (fst (fst (fetch_modules kiwi outdated
                                                                    true w1)))))
                     ++ " modules were updated");
              Print (tab ++ "* "
                     ++ str_of_Z (len (snd (fst (fetch_modules kiwi outdated
                                                               true w1))))
                     ++ " modules could not be updated")])
          else (Exit 0%Z, w1, [])).
Proof.
  intros Hl Ht Hc Ef Hu.
  destruct (Fetching.collect_trace kiwi argv1 args w _ _ _ Hc) as [_ [Hf0 Hp0]].
  destruct (Fetching.fetch_results_output (W:=W) args modules fetched outdated
              failed w1) as [t1 [E1 O1]].
  exists (t0 ++ [CallFetch modules (is_some (update_modules args))] ++ t1)%list.
  destruct (String.eqb (ask kiwi "Update the outdated modules?" ["y"; "n"]) "y")
    eqn:Ha.
  - apply String.eqb_eq in Ha.
    destruct (fetch_modules kiwi outdated true w1) as [[[f' u'] fl'] w2] eqn:Ef'.
    rewrite (Fetching.run_fetch_collected kiwi argv1 args w _ _ _ w1 _ _ _
               Hl Ht Hc Ef
               (RunFacts.report_accepted_events kiwi args modules fetched outdated
                  failed w1 f' u' fl' w2 Hu Ha Ef')).
    rewrite E1. unfold outcome, final, trace. cbn [fst snd].
    eexists. split; [rewrite <- !app_assoc; reflexivity|].
    split; [rewrite !Fetching.fetch_calls_app, Hf0,
              (Fetching.output_fetch_calls t1 O1); reflexivity|].
    split; [rewrite !Fetching.prompts_app, Hp0,
              (Fetching.output_prompts t1 O1); reflexivity|].
    repeat split; reflexivity.
  - apply String.eqb_neq in Ha.
    rewrite (Fetching.run_fetch_collected kiwi argv1 args w _ _ _ w1 _ _ _
               Hl Ht Hc Ef
               (RunFacts.report_declined_events kiwi args modules fetched outdated
                  failed w1 Hu Ha)).
    rewrite E1. unfold outcome, final, trace. cbn [fst snd].
    exists []. split; [rewrite <- !app_assoc; reflexivity|].
    split; [rewrite !Fetching.fetch_calls_app, Hf0,
              (Fetching.output_fetch_calls t1 O1); reflexivity|].
    split; [rewrite !Fetching.prompts_app, Hp0,
              (Fetching.output_prompts t1 O1); reflexivity|].
    repeat split; reflexivity.
Qed.

Lemma update_pass_iff_confirmed_witness :
  exists pre post,
    trace (run (stub (Some ["Y"; "Z"]) all_outdated "y") "-g"
               (args_get ["a"; "b"]) ["X"])
    = (pre ++ update_prompt :: post)%list
    /\ fetch_calls pre = [(["a"; "b"], false)]
    /\ prompts pre = []
    /\ prompts post = []
    /\ fetch_calls post = [(["a"; "b"], true)]
    /\ (outcome (run (stub (Some ["Y"; "Z"]) all_outdated "y") "-g"
                     (args_get ["a"; "b"]) ["X"]),
        final (run (stub (Some ["Y"; "Z"]) all_outdated "y") "-g"
                   (args_get ["a"; "b"]) ["X"]),
        post)
       = (Ret tt, ["X"; "a"; "b"],
          [CallFetch ["a"; "b"] true;
           Say "update results";
           Print (tab ++ "* 2 modules were updated");
           Print (tab ++ "* 0 modules could not be updated")]).
Proof.
  apply (update_pass_iff_confirmed
           (stub (Some ["Y"; "Z"]) all_outdated "y") "-g" (args_get ["a"; "b"])
           ["X"] ["X"] ["a"; "b"] [] ["a"; "b"] [] []).
  - reflexivity.
  - reflexivity.
  - reflexivity.
  - reflexivity.
  - discriminate.
Defined.

End Effects.
